(** * Daemon-Swipe: gesture classification and binding dispatch

    A shallow embedding of [src/main.cpp]: the libinput event switch of the
    main loop (swipe, pinch and hold gestures), the "Gesture Bindings" window
    drawn every frame (custom commands, pruning, re-sync, the eight combo
    boxes) and the two process-wide tables [gesture_bindings] and
    [selected_command_indices].

    - [double] is IEEE 754 binary64, modelled by the kernel's primitive
      floats ([PrimFloat]); [+=], [*=], [>], [<] and [std::abs] are the
      primitive operations, rounding included.
    - [int] finger counts and indices are [Z] (no arithmetic is done on them).
    - [std::string] is [string]; [std::vector<std::string>] is [list string].
    - [std::map<std::pair<int, std::string>, ...>] is a [gmap] keyed by
      [Z * string].
    - What the program writes to [std::cout] and hands to [std::system] is an
      explicit list of effects returned next to the new state.  The program is
      modelled as built without [-DDEBUG]: the [#ifdef DEBUG] prints are
      absent. *)

From Stdlib Require Import ZArith Floats QArith Lia.
From stdpp Require Import gmap strings list fin_maps pretty.

Open Scope Z_scope.

(** ** Program state *)

(** [struct SwipeGesture] and the global [swipe]. *)
Record SwipeGesture := mkSwipe {
  swipe_dx : float;
  swipe_dy : float;
  swipe_active : bool;
  swipe_fingers : Z
}.

(** [struct PinchGesture] and the global [pinch]. *)
Record PinchGesture := mkPinch {
  pinch_scale : float;
  pinch_dx : float;
  pinch_dy : float;
  pinch_fingers : Z;
  pinch_active : bool
}.

(** Keys of both tables: [std::pair<int, std::string>]. *)
Abbreviation BindingKey := (Z * string)%type.

(** The globals [swipe], [pinch], [gesture_bindings] and
    [selected_command_indices], and the function-local statics
    [user_commands] and [custom_cmd] of [main]. *)
Record State := mkState {
  swipe : SwipeGesture;
  pinch : PinchGesture;
  gesture_bindings : gmap BindingKey string;
  selected_command_indices : gmap BindingKey Z;
  user_commands : list string;
  custom_cmd : string
}.

(** The member initialisers of the two structs; both maps and
    [user_commands] start empty and [custom_cmd] is the empty string. *)
Definition initial_state : State :=
  {| swipe := mkSwipe 0 0 false 0;
     pinch := mkPinch 1 0 0 0 false;
     gesture_bindings := ∅;
     selected_command_indices := ∅;
     user_commands := [];
     custom_cmd := "" |}.

Definition set_swipe (sw : SwipeGesture) (st : State) : State :=
  {| swipe := sw; pinch := pinch st;
     gesture_bindings := gesture_bindings st;
     selected_command_indices := selected_command_indices st;
     user_commands := user_commands st; custom_cmd := custom_cmd st |}.

Definition set_pinch (pi : PinchGesture) (st : State) : State :=
  {| swipe := swipe st; pinch := pi;
     gesture_bindings := gesture_bindings st;
     selected_command_indices := selected_command_indices st;
     user_commands := user_commands st; custom_cmd := custom_cmd st |}.

Definition set_gesture_bindings (b : gmap BindingKey string) (st : State)
  : State :=
  {| swipe := swipe st; pinch := pinch st;
     gesture_bindings := b;
     selected_command_indices := selected_command_indices st;
     user_commands := user_commands st; custom_cmd := custom_cmd st |}.

Definition set_selected_command_indices (s : gmap BindingKey Z) (st : State)
  : State :=
  {| swipe := swipe st; pinch := pinch st;
     gesture_bindings := gesture_bindings st;
     selected_command_indices := s;
     user_commands := user_commands st; custom_cmd := custom_cmd st |}.

Definition set_user_commands (u : list string) (st : State) : State :=
  {| swipe := swipe st; pinch := pinch st;
     gesture_bindings := gesture_bindings st;
     selected_command_indices := selected_command_indices st;
     user_commands := u; custom_cmd := custom_cmd st |}.

Definition set_custom_cmd (c : string) (st : State) : State :=
  {| swipe := swipe st; pinch := pinch st;
     gesture_bindings := gesture_bindings st;
     selected_command_indices := selected_command_indices st;
     user_commands := user_commands st; custom_cmd := c |}.

(** ** Effects *)

(** What leaves the process: a line written to [std::cout], or a command
    line handed to [std::system]. *)
Inductive effect :=
| Stdout (line : string)
| System (command : string).

(** The commands handed to [std::system], in order. *)
Definition executed (out : list effect) : list string :=
  omap (fun e => match e with System c => Some c | Stdout _ => None end) out.

(** ** Events of the device *)

(** The [libinput_event_type]s the switch distinguishes, each with the
    values its case reads from the event. *)
Inductive libinput_event :=
| GESTURE_SWIPE_BEGIN (finger_count : Z)
| GESTURE_SWIPE_UPDATE (dx dy : float)
| GESTURE_SWIPE_END
| POINTER_AXIS
| GESTURE_PINCH_BEGIN (finger_count : Z)
| GESTURE_PINCH_UPDATE (scale dx dy : float)
| GESTURE_PINCH_END
| GESTURE_HOLD_BEGIN (finger_count : Z)
| GESTURE_HOLD_END (finger_count : Z)
| OTHER_EVENT.

(** Running a loop body over a sequence, threading the state and
    collecting the effects in order. *)
Fixpoint for_each {A : Type} (body : A -> State -> State * list effect)
    (l : list A) (st : State) : State * list effect :=
  match l with
  | [] => (st, [])
  | x :: l' =>
      let '(st1, out1) := body x st in
      let '(st2, out2) := for_each body l' st1 in
      (st2, out1 ++ out2)
  end.

(** ** The swipe classifier (lines 226-237)

    [direction] is a default-constructed, hence empty, [std::string] that
    the branches may assign. *)
Definition swipe_direction (dx dy : float) : string :=
  if (abs dy <? abs dx)%float then
    if (50 <? dx)%float then "RIGHT"
    else if (dx <? -50)%float then "LEFT"
    else ""
  else
    if (50 <? dy)%float then "DOWN"
    else if (dy <? -50)%float then "UP"
    else "".

(** ** Dispatch (lines 242-249)

    [exit_status] stands for what [std::system] returns; it is bound to
    [ret] and discarded. *)
Definition dispatch (exit_status : string -> Z) (key : BindingKey)
    (st : State) : State * list effect :=
  match gesture_bindings st !! key with
  | Some command =>
      let ret := exit_status command in
      (st, [Stdout ("Running command: " +:+ command); System command])
  | None => (st, [Stdout "No binding found for this gesture"])
  end.

(** [case LIBINPUT_EVENT_GESTURE_SWIPE_END] (lines 219-253). *)
Definition swipe_end (exit_status : string -> Z) (st : State)
  : State * list effect :=
  let sw := swipe st in
  let st1 := set_swipe (mkSwipe (swipe_dx sw) (swipe_dy sw) false
                          (swipe_fingers sw)) st in
  let direction := swipe_direction (swipe_dx sw) (swipe_dy sw) in
  if String.eqb direction "" then (st1, [])
  else
    let '(st2, out) := dispatch exit_status (swipe_fingers sw, direction) st1 in
    (st2,
     Stdout ("Detected " +:+ pretty (swipe_fingers sw) +:+ "-finger swipe "
             +:+ direction) :: out).

(** The three messages of [case LIBINPUT_EVENT_GESTURE_PINCH_END]
    (lines 313-318).  The literals [1.1] and [0.9] denote the nearest
    binary64 values, written here in hexadecimal. *)
Definition pinch_in_threshold : float := 0x1.199999999999ap+0%float.
Definition pinch_out_threshold : float := 0x1.ccccccccccccdp-1%float.

Definition pinch_verdict (scale : float) : string :=
  if (pinch_in_threshold <? scale)%float then
    "Detected pinch out (zoom in)"
  else if (scale <? pinch_out_threshold)%float then
    "Detected pinch in (zoom out)"
  else "Minor pinch, no zoom direction detected".

(** The body of the [switch (type)] statement (lines 193-348). *)
Definition handle_event (exit_status : string -> Z) (ev : libinput_event)
    (st : State) : State * list effect :=
  match ev with
  | GESTURE_SWIPE_BEGIN finger_count =>
      (set_swipe (mkSwipe 0 0 true finger_count) st, [])
  | GESTURE_SWIPE_UPDATE dx dy =>
      let sw := swipe st in
      (set_swipe (mkSwipe (swipe_dx sw + dx) (swipe_dy sw + dy)
                    (swipe_active sw) (swipe_fingers sw)) st, [])
  | GESTURE_SWIPE_END => swipe_end exit_status st
  | POINTER_AXIS => (st, [])
  | GESTURE_PINCH_BEGIN finger_count =>
      (set_pinch (mkPinch 1 0 0 finger_count true) st, [])
  | GESTURE_PINCH_UPDATE scale_step dx dy =>
      let pi := pinch st in
      (set_pinch (mkPinch (pinch_scale pi * scale_step) (pinch_dx pi + dx)
                    (pinch_dy pi + dy) (pinch_fingers pi) (pinch_active pi))
         st, [])
  | GESTURE_PINCH_END =>
      let pi := pinch st in
      (set_pinch (mkPinch (pinch_scale pi) (pinch_dx pi) (pinch_dy pi)
                    (pinch_fingers pi) false) st,
       [Stdout (pinch_verdict (pinch_scale pi))])
  | GESTURE_HOLD_BEGIN finger_count => (st, [])
  | GESTURE_HOLD_END finger_count => (st, [])
  | OTHER_EVENT => (st, [])
  end.

(** The inner [while] loop (lines 188-351): every pending event is handled,
    in arrival order. *)
Definition handle_events (exit_status : string -> Z)
    (evs : list libinput_event) (st : State) : State * list effect :=
  for_each (handle_event exit_status) evs st.

(** ** The "Gesture Bindings" window (lines 365-445) *)

(** [std::find] over a vector of strings: the position of the first element
    equal to [x], or [None] for the [end()] iterator. *)
Fixpoint std_find (l : list string) (x : string) : option nat :=
  match l with
  | [] => None
  | y :: l' => if String.eqb y x then Some 0%nat else S <$> std_find l' x
  end.

Definition found (l : list string) (x : string) : bool :=
  match std_find l x with Some _ => true | None => false end.

(** Lines 384-395. *)
Definition predefined_commands : list string :=
  [ "None";
    "notify-send 'Gesture Triggered'";
    "gnome-terminal";
    "google-chrome";
    "playerctl play-pause";
    "playerctl next";
    "playerctl previous" ].

(** Lines 397-398: the catalog shown in every combo box. *)
Definition all_commands (user_commands : list string) : list string :=
  predefined_commands ++ user_commands.

(** The test and [push_back] of the "Add" button (lines 373-378). *)
Definition addCustomAction (cmd : string) (user_commands : list string)
  : list string :=
  if negb (String.eqb cmd "") && negb (found user_commands cmd)
  then user_commands ++ [cmd]
  else user_commands.

(** The whole body of [if (ImGui::Button("Add"))] (lines 372-380): the text
    buffer is cleared whether or not the command was added. *)
Definition add_button (st : State) : State :=
  set_custom_cmd ""
    (set_user_commands (addCustomAction (custom_cmd st) (user_commands st))
       st).

(** The pruning loop (lines 401-407): every entry of [gesture_bindings] is
    visited once and erased when its command is not found in [commands]. *)
Definition pruneStaleBindings (commands : list string)
    (bindings : gmap BindingKey string) : gmap BindingKey string :=
  map_fold
    (fun key cmd acc => if found commands cmd then acc else delete key acc)
    bindings bindings.

(** [sync_selected_commands] (lines 102-109). *)
Definition sync_selected_commands (commands : list string)
    (bindings : gmap BindingKey string) (selected : gmap BindingKey Z)
  : gmap BindingKey Z :=
  map_fold
    (fun key cmd sel =>
       match std_find commands cmd with
       | Some i => <[key := Z.of_nat i]> sel
       | None => sel
       end)
    selected bindings.

(** [lookupBinding]: [gesture_bindings.find(key)]. *)
Definition lookupBinding (key : BindingKey)
    (bindings : gmap BindingKey string) : option string :=
  bindings !! key.

(** The two branches under [ImGui::Selectable] (lines 428-435) as an
    operation on the table. *)
Definition setBinding (key : BindingKey) (command : string)
    (bindings : gmap BindingKey string) : gmap BindingKey string :=
  if String.eqb command "None" then delete key bindings
  else <[key := command]> bindings.

(** Line 413 and the two [for] loops of lines 415-416, in iteration
    order. *)
Definition directions : list string := ["LEFT"; "RIGHT"; "UP"; "DOWN"].

Definition displayed_keys : list BindingKey :=
  flat_map (fun fingers => map (fun dir => (fingers, dir)) directions) [3; 4].

(** What the user does to the window during one frame, as the return
    values of the ImGui calls: the text left in the buffer by
    [ImGui::InputText], and whether [ImGui::Button], [ImGui::BeginCombo]
    for a key and [ImGui::Selectable] for entry [i] of that key's combo
    returned [true]. *)
Record gui_input := mkGui {
  input_text : string -> string;
  add_clicked : bool;
  combo_open : BindingKey -> bool;
  selectable_clicked : BindingKey -> nat -> bool
}.

(** A clicked [ImGui::Selectable] (lines 425-436). *)
Definition select_command (key : BindingKey) (i : nat) (command : string)
    (st : State) : State * list effect :=
  let st1 :=
    set_selected_command_indices
      (<[key := Z.of_nat i]> (selected_command_indices st)) st in
  let st2 :=
    set_gesture_bindings (setBinding key command (gesture_bindings st1)) st1 in
  (st2,
   [Stdout
      (if String.eqb command "None"
       then "Unbound " +:+ pretty key.1 +:+ "F " +:+ key.2
       else "Bound " +:+ pretty key.1 +:+ "F " +:+ key.2 +:+ " -> "
            +:+ command)]).

(** One combo box (lines 417-441).  [selected_command_indices[key]]
    default-inserts [0] for a key the map does not hold. *)
Definition combo (gui : gui_input) (commands : list string)
    (key : BindingKey) (st : State) : State * list effect :=
  let st0 :=
    match selected_command_indices st !! key with
    | Some _ => st
    | None =>
        set_selected_command_indices
          (<[key := 0]> (selected_command_indices st)) st
    end in
  if combo_open gui key then
    for_each
      (fun '(i, command) st' =>
         if selectable_clicked gui key i then select_command key i command st'
         else (st', []))
      (imap (fun i command => (i, command)) commands) st0
  else (st0, []).

(** One frame of the window (lines 365-445). *)
Definition frame (gui : gui_input) (st : State) : State * list effect :=
  let st1 := set_custom_cmd (input_text gui (custom_cmd st)) st in
  let st2 := if add_clicked gui then add_button st1 else st1 in
  let commands := all_commands (user_commands st2) in
  let st3 :=
    set_gesture_bindings
      (pruneStaleBindings commands (gesture_bindings st2)) st2 in
  let st4 :=
    set_selected_command_indices
      (sync_selected_commands commands (gesture_bindings st3) ∅) st3 in
  for_each (combo gui commands) displayed_keys st4.

(** One iteration of the main loop (lines 176-458): the pending device
    events, then the frame. *)
Definition main_loop_iteration (exit_status : string -> Z)
    (evs : list libinput_event) (gui : gui_input) (st : State)
  : State * list effect :=
  let '(st1, out1) := handle_events exit_status evs st in
  let '(st2, out2) := frame gui st1 in
  (st2, out1 ++ out2).

(** ** Event type names (lines 37-78)

    [enum libinput_event_type] is declared in [libinput.h], which is not
    part of the sources: the values of the enumerators the switch names are
    taken as a parameter.  An event type is the enumeration's integer. *)
Record libinput_event_types := mkEventTypes {
  LIBINPUT_EVENT_DEVICE_ADDED : Z;
  LIBINPUT_EVENT_DEVICE_REMOVED : Z;
  LIBINPUT_EVENT_POINTER_MOTION : Z;
  LIBINPUT_EVENT_POINTER_BUTTON : Z;
  LIBINPUT_EVENT_POINTER_AXIS : Z;
  LIBINPUT_EVENT_POINTER_SCROLL_FINGER : Z;
  LIBINPUT_EVENT_GESTURE_SWIPE_BEGIN : Z;
  LIBINPUT_EVENT_GESTURE_SWIPE_UPDATE : Z;
  LIBINPUT_EVENT_GESTURE_SWIPE_END : Z;
  LIBINPUT_EVENT_GESTURE_PINCH_BEGIN : Z;
  LIBINPUT_EVENT_GESTURE_PINCH_UPDATE : Z;
  LIBINPUT_EVENT_GESTURE_PINCH_END : Z;
  LIBINPUT_EVENT_GESTURE_HOLD_BEGIN : Z;
  LIBINPUT_EVENT_GESTURE_HOLD_END : Z
}.

(** [get_event_type_name]: the cases of the switch in source order, then the
    [default] case with [std::to_string(type)]. *)
Definition get_event_type_name (T : libinput_event_types) (type : Z)
  : string :=
  if type =? LIBINPUT_EVENT_DEVICE_ADDED T then "DEVICE_ADDED" else
  if type =? LIBINPUT_EVENT_DEVICE_REMOVED T then "DEVICE_REMOVED" else
  if type =? LIBINPUT_EVENT_POINTER_MOTION T then "POINTER_MOTION" else
  if type =? LIBINPUT_EVENT_POINTER_BUTTON T then "POINTER_BUTTON" else
  if type =? LIBINPUT_EVENT_POINTER_AXIS T then "POINTER_AXIS" else
  if type =? LIBINPUT_EVENT_POINTER_SCROLL_FINGER T then "POINTER_FINGER" else
  if type =? LIBINPUT_EVENT_GESTURE_SWIPE_BEGIN T then "GESTURE_SWIPE_BEGIN" else
  if type =? LIBINPUT_EVENT_GESTURE_SWIPE_UPDATE T then "GESTURE_SWIPE_UPDATE" else
  if type =? LIBINPUT_EVENT_GESTURE_SWIPE_END T then "GESTURE_SWIPE_END" else
  if type =? LIBINPUT_EVENT_GESTURE_PINCH_BEGIN T then "GESTURE_PINCH_BEGIN" else
  if type =? LIBINPUT_EVENT_GESTURE_PINCH_UPDATE T then "GESTURE_PINCH_UPDATE" else
  if type =? LIBINPUT_EVENT_GESTURE_PINCH_END T then "GESTURE_PINCH_END" else
  if type =? LIBINPUT_EVENT_GESTURE_HOLD_BEGIN T then "GESTURE_HOLD_BEGIN" else
  if type =? LIBINPUT_EVENT_GESTURE_HOLD_END T then "GESTURE_HOLD_END" else
  "UNKNOWN_EVENT_" +:+ pretty type.

(** The values [libinput.h] gives the fourteen enumerators. *)
Definition libinput_h : libinput_event_types :=
  {| LIBINPUT_EVENT_DEVICE_ADDED := 1;
     LIBINPUT_EVENT_DEVICE_REMOVED := 2;
     LIBINPUT_EVENT_POINTER_MOTION := 400;
     LIBINPUT_EVENT_POINTER_BUTTON := 402;
     LIBINPUT_EVENT_POINTER_AXIS := 403;
     LIBINPUT_EVENT_POINTER_SCROLL_FINGER := 405;
     LIBINPUT_EVENT_GESTURE_SWIPE_BEGIN := 800;
     LIBINPUT_EVENT_GESTURE_SWIPE_UPDATE := 801;
     LIBINPUT_EVENT_GESTURE_SWIPE_END := 802;
     LIBINPUT_EVENT_GESTURE_PINCH_BEGIN := 803;
     LIBINPUT_EVENT_GESTURE_PINCH_UPDATE := 804;
     LIBINPUT_EVENT_GESTURE_PINCH_END := 805;
     LIBINPUT_EVENT_GESTURE_HOLD_BEGIN := 806;
     LIBINPUT_EVENT_GESTURE_HOLD_END := 807 |}.

(** ** Vocabulary of the properties *)

(** Every command a table binds is in the catalog. *)
Definition consistent (commands : list string)
    (bindings : gmap BindingKey string) : Prop :=
  forall key command,
    lookupBinding key bindings = Some command -> command ∈ commands.

(** The keys the configuration window shows: three or four fingers and one
    of the four directions. *)
Definition bindable (key : BindingKey) : Prop :=
  (key.1 = 3 \/ key.1 = 4) /\ key.2 ∈ directions.

Definition within_surface (bindings : gmap BindingKey string) : Prop :=
  forall key command, bindings !! key = Some command -> bindable key.

(** The states the program can be in at the top of its main loop. *)
Inductive reachable : State -> Prop :=
| reachable_initial : reachable initial_state
| reachable_iteration exit_status evs gui st :
    reachable st ->
    reachable (main_loop_iteration exit_status evs gui st).1.

(** A frame in which the user opens the combo of [(3, "LEFT")] and clicks
    its third entry, ["gnome-terminal"]. *)
Definition click_3F_LEFT_terminal : gui_input :=
  {| input_text := fun text => text;
     add_clicked := false;
     combo_open := fun key => bool_decide (key = (3, "LEFT"));
     selectable_clicked :=
       fun key i => bool_decide (key = (3, "LEFT")) && Nat.eqb i 2 |}.

Definition bound_state : State :=
  (main_loop_iteration (fun _ => 0) [] click_3F_LEFT_terminal
     initial_state).1.

(** A frame in which the user has typed ["gnome-terminal"] and presses
    "Add". *)
Definition add_gnome_terminal : gui_input :=
  {| input_text := fun _ => "gnome-terminal";
     add_clicked := true;
     combo_open := fun _ => false;
     selectable_clicked := fun _ _ => false |}.

(** The left-to-right binary64 sum from [0.0] and product from [1.0]: every
    [+] and [*] rounds to the nearest double. *)
Definition double_sum (l : list float) : float :=
  fold_left PrimFloat.add l 0%float.

Definition double_product (l : list float) : float :=
  fold_left PrimFloat.mul l 1%float.

(** The real number a finite double denotes, counted in units of
    [2^-1074], the smallest positive double; every finite double is a whole
    number of these units.  Infinities and NaN denote no real number. *)
Definition exact_value (x : float) : option Z :=
  match Prim2SF x with
  | S754_zero _ => Some 0
  | S754_finite s m e =>
      Some ((if s then - Z.pos m else Z.pos m) * 2 ^ (e + 1074))
  | S754_infinity _ | S754_nan => None
  end.

(** The sum of the real numbers a list of doubles denotes, without any
    rounding. *)
Fixpoint exact_sum (l : list float) : option Z :=
  match l with
  | [] => Some 0
  | x :: l' =>
      match exact_value x, exact_sum l' with
      | Some v, Some s => Some (v + s)
      | _, _ => None
      end
  end.

(** One swipe occurrence: Begin, one Update per sample, End. *)
Definition swipe_updates (samples : list (float * float))
  : list libinput_event :=
  map (fun s => GESTURE_SWIPE_UPDATE s.1 s.2) samples.

Definition swipe_session (fingers : Z) (samples : list (float * float))
  : list libinput_event :=
  GESTURE_SWIPE_BEGIN fingers :: swipe_updates samples ++ [GESTURE_SWIPE_END].

(** One pinch occurrence; a sample is [(scale, dx, dy)]. *)
Definition pinch_updates (samples : list (float * float * float))
  : list libinput_event :=
  map (fun s => GESTURE_PINCH_UPDATE s.1.1 s.1.2 s.2) samples.

Definition pinch_session (fingers : Z) (samples : list (float * float * float))
  : list libinput_event :=
  GESTURE_PINCH_BEGIN fingers :: pinch_updates samples ++ [GESTURE_PINCH_END].

(** A motion of [(51, 0)] delivered in three samples. *)
Definition absorbed_split : list (float * float) :=
  [(0x1p60, 0); (51, 0); (-0x1p60, 0)]%float.

(** The state a frame hands to its display loop (lines 365-409): the text
    field and the "Add" button handled, the table pruned and
    [selected_command_indices] cleared and re-synced. *)
Definition frame_prepare (gui : gui_input) (st : State) : State :=
  let st1 := set_custom_cmd (input_text gui (custom_cmd st)) st in
  let st2 := if add_clicked gui then add_button st1 else st1 in
  let commands := all_commands (user_commands st2) in
  let st3 :=
    set_gesture_bindings
      (pruneStaleBindings commands (gesture_bindings st2)) st2 in
  set_selected_command_indices
    (sync_selected_commands commands (gesture_bindings st3) ∅) st3.

(** The preview [all_commands[selected]] that line 422 hands to
    [ImGui::BeginCombo], [selected] being [selected_command_indices[key]]
    with its default [0]; [None] stands for an index outside the vector,
    which the program must never form. *)
Definition combo_preview (commands : list string) (key : BindingKey)
    (st : State) : option string :=
  let selected := default 0 (selected_command_indices st !! key) in
  if decide (0 <= selected) then commands !! Z.to_nat selected else None.

(** The cases of the switch that touch [swipe], and those that touch
    [pinch]. *)
Definition is_swipe_event (ev : libinput_event) : bool :=
  match ev with
  | GESTURE_SWIPE_BEGIN _ | GESTURE_SWIPE_UPDATE _ _ | GESTURE_SWIPE_END => true
  | _ => false
  end.

Definition is_pinch_event (ev : libinput_event) : bool :=
  match ev with
  | GESTURE_PINCH_BEGIN _ | GESTURE_PINCH_UPDATE _ _ _ | GESTURE_PINCH_END =>
      true
  | _ => false
  end.

Definition is_swipe_end (ev : libinput_event) : bool :=
  match ev with GESTURE_SWIPE_END => true | _ => false end.

(** A frame in which the user opens the combo of [key] and clicks its entry
    [i], and does nothing else. *)
Definition click_entry (key : BindingKey) (i : nat) : gui_input :=
  {| input_text := fun text => text;
     add_clicked := false;
     combo_open := fun k => bool_decide (k = key);
     selectable_clicked := fun k j => bool_decide (k = key) && Nat.eqb j i |}.

(** The combo previews agree with the table: for every key the preview
    index is inside the catalog and its entry is the command the key is
    bound to, or ["None"] when the key is not bound. *)
Definition shows_bindings (commands : list string) (st : State) : Prop :=
  forall key,
    combo_preview commands key st
      = Some (default "None" (gesture_bindings st !! key)).

(** What the main loop keeps true of the configuration. *)
Definition coherent (st : State) : Prop :=
  NoDup (user_commands st) /\
("" ∉ user_commands st) /\
  consistent (all_commands (user_commands st)) (gesture_bindings st) /\
  (forall key, gesture_bindings st !! key <> Some "None") /\
  shows_bindings (all_commands (user_commands st)) st.

(** Exchanging left with right, and up with down. *)
Definition mirror_horizontal (direction : string) : string :=
  if String.eqb direction "RIGHT" then "LEFT"
  else if String.eqb direction "LEFT" then "RIGHT"
  else direction.

Definition mirror_vertical (direction : string) : string :=
  if String.eqb direction "DOWN" then "UP"
  else if String.eqb direction "UP" then "DOWN"
  else direction.

(** * Properties *)

(** ** binary64 comparison facts

    The comparison primitives are specified by [FloatAxioms] through
    [SFcompare] on the decoded [spec_float]; the facts below are the order
    properties the classification theorems need. *)
Module Double.

Lemma SFcompare_antisym (x y : spec_float) :
  SFcompare y x = option_map CompOpp (SFcompare x y).
Proof.
  destruct x as [sx|sx| |sx mx ex], y as [sy|sy| |sy my ey];
    try reflexivity;
    try (destruct sx; reflexivity);
    try (destruct sy; reflexivity);
    try (destruct sx, sy; reflexivity).
  simpl. destruct sx, sy; try reflexivity; simpl.
  - rewrite (Z.compare_antisym ey ex).
    destruct (ey ?= ex) eqn:E; simpl; try reflexivity.
    rewrite CompOpp_involutive.
    rewrite Pos.compare_cont_antisym. reflexivity.
  - rewrite (Z.compare_antisym ey ex).
    destruct (ey ?= ex) eqn:E; simpl; try reflexivity.
    rewrite Pos.compare_cont_antisym. reflexivity.
Qed.

(** [x <= y] excludes [y < x]. *)
Lemma leb_not_gt (x y : float) :
  (x <=? y)%float = true -> (y <? x)%float = false.
Proof.
  rewrite leb_spec, ltb_spec. unfold SFleb, SFltb.
  rewrite (SFcompare_antisym (Prim2SF x) (Prim2SF y)).
  destruct (SFcompare (Prim2SF x) (Prim2SF y)) as [[ | | ]|];
    simpl; congruence.
Qed.

(** [x < y] excludes [y < x]. *)
Lemma ltb_asym (x y : float) :
  (x <? y)%float = true -> (y <? x)%float = false.
Proof.
  rewrite !ltb_spec. unfold SFltb.
  rewrite (SFcompare_antisym (Prim2SF x) (Prim2SF y)).
  destruct (SFcompare (Prim2SF x) (Prim2SF y)) as [[ | | ]|];
    simpl; congruence.
Qed.

(** [x == y] gives [x <= y]. *)
Lemma eqb_leb (x y : float) :
  (x =? y)%float = true -> (x <=? y)%float = true.
Proof.
  rewrite FloatAxioms.eqb_spec, leb_spec. unfold SFeqb, SFleb.
  destruct (SFcompare (Prim2SF x) (Prim2SF y)) as [[ | | ]|]; congruence.
Qed.

Lemma SFltb_trans (x y z : spec_float) :
  SFltb x y = true -> SFltb y z = true -> SFltb x z = true.
Proof.
  unfold SFltb, SFcompare.
  destruct x as [sx|sx| |sx mx ex], y as [sy|sy| |sy my ey],
           z as [sz|sz| |sz mz ez];
    try discriminate;
    try (destruct sx; try discriminate);
    try (destruct sy; try discriminate);
    try (destruct sz; try discriminate);
    try reflexivity;
    change (Pos.compare_cont Eq mx my) with (mx ?= my)%positive;
    change (Pos.compare_cont Eq my mz) with (my ?= mz)%positive;
    change (Pos.compare_cont Eq mx mz) with (mx ?= mz)%positive;
    destruct (Z.compare_spec ex ey), (Z.compare_spec ey ez),
             (Z.compare_spec ex ez); try discriminate; try lia;
      try reflexivity;
    destruct (Pos.compare_spec mx my), (Pos.compare_spec my mz),
             (Pos.compare_spec mx mz); cbn [CompOpp];
      try discriminate; try lia; reflexivity.
Qed.

Lemma ltb_trans (x y z : float) :
  (x <? y)%float = true -> (y <? z)%float = true -> (x <? z)%float = true.
Proof. rewrite !ltb_spec. apply SFltb_trans. Qed.

(** Adding to positive zero is exact, except that [0.0 + (-0.0)] is
    [0.0]. *)
Lemma add_zero_l (x : float) :
  x <> (-0)%float -> (0 + x)%float = x.
Proof.
  intros Hx. apply Prim2SF_inj. rewrite add_spec.
  change (Prim2SF 0%float) with (S754_zero false).
  destruct (Prim2SF x) as [s|s| |s m e] eqn:E; try reflexivity.
  destruct s; try reflexivity.
  exfalso. apply Hx. apply Prim2SF_inj. rewrite E. reflexivity.
Qed.

End Double.

(** ** Swipe classification *)

Section SwipeClassifier.

(** [50 < x] and [x < -50] cannot both hold. *)
Lemma above_threshold_not_below (x : float) :
  (50 <? x)%float = true -> (x <? -50)%float = false.
Proof.
  intros H. destruct (x <? -50)%float eqn:E; [|reflexivity].
  pose proof (Double.ltb_trans _ _ _ H E) as Habs.
  vm_compute in Habs. discriminate.
Qed.

Lemma below_threshold_not_above (x : float) :
  (x <? -50)%float = true -> (50 <? x)%float = false.
Proof.
  intros H. destruct (50 <? x)%float eqn:E; [|reflexivity].
  rewrite (above_threshold_not_below x E) in H. discriminate.
Qed.

(** On the horizontal branch the verdict depends on [dx] alone. *)
Lemma swipe_direction_horizontal (dx dy : float) :
  (abs dy <? abs dx)%float = true ->
  swipe_direction dx dy =
    if (50 <? dx)%float then "RIGHT"
    else if (dx <? -50)%float then "LEFT" else "".
Proof. intros H. unfold swipe_direction. rewrite H. reflexivity. Qed.

(** On the vertical branch the verdict depends on [dy] alone. *)
Lemma swipe_direction_vertical (dx dy : float) :
  (abs dy <? abs dx)%float = false ->
  swipe_direction dx dy =
    if (50 <? dy)%float then "DOWN"
    else if (dy <? -50)%float then "UP" else "".
Proof. intros H. unfold swipe_direction. rewrite H. reflexivity. Qed.

End SwipeClassifier.

(** C1.  Swipe classification.  For all accumulated [dx], [dy]: when
    [|dx| > |dy|] the verdict is RIGHT if [dx > 50], LEFT if [dx < -50] and
    none (the empty direction) otherwise; when [|dx| <= |dy|], the tie
    [|dx| == |dy|] included, the verdict is DOWN if [dy > 50], UP if
    [dy < -50] and none otherwise.  In particular [(51, 0)] gives RIGHT,
    [(50, 0)] gives no verdict, [(-51, 0)] gives LEFT and [(60, 60)] gives
    DOWN. *)
Theorem swipe_classification (dx dy : float) :
  ((abs dy <? abs dx)%float = true ->
     ((50 <? dx)%float = true -> swipe_direction dx dy = "RIGHT") /\
     ((dx <? -50)%float = true -> swipe_direction dx dy = "LEFT") /\
     ((50 <? dx)%float = false -> (dx <? -50)%float = false ->
        swipe_direction dx dy = "")) /\
  ((abs dx <=? abs dy)%float = true ->
     ((50 <? dy)%float = true -> swipe_direction dx dy = "DOWN") /\
     ((dy <? -50)%float = true -> swipe_direction dx dy = "UP") /\
     ((50 <? dy)%float = false -> (dy <? -50)%float = false ->
        swipe_direction dx dy = "")) /\
  ((abs dx =? abs dy)%float = true ->
     swipe_direction dx dy =
       if (50 <? dy)%float then "DOWN"
       else if (dy <? -50)%float then "UP" else "") /\
  swipe_direction 51 0 = "RIGHT" /\
  swipe_direction 50 0 = "" /\
  swipe_direction (-51) 0 = "LEFT" /\
  swipe_direction 60 60 = "DOWN".
Proof.
  repeat apply conj.
  - intros H. rewrite (swipe_direction_horizontal dx dy H).
    repeat apply conj.
    + intros ->. reflexivity.
    + intros Hlt. rewrite (below_threshold_not_above dx Hlt), Hlt.
      reflexivity.
    + intros -> ->. reflexivity.
  - intros H. apply Double.leb_not_gt in H.
    rewrite (swipe_direction_vertical dx dy H).
    repeat apply conj.
    + intros ->. reflexivity.
    + intros Hlt. rewrite (below_threshold_not_above dy Hlt), Hlt.
      reflexivity.
    + intros -> ->. reflexivity.
  - intros H. apply Double.eqb_leb, Double.leb_not_gt in H.
    apply swipe_direction_vertical, H.
  - vm_compute. reflexivity.
  - vm_compute. reflexivity.
  - vm_compute. reflexivity.
  - vm_compute. reflexivity.
Qed.

(** The accumulated motion [(80, 10)] of scenario A is a RIGHT swipe, and
    [(-20, -90)] of scenario B an UP swipe. *)
Lemma swipe_classification_witness :
  swipe_direction 80 10 = "RIGHT" /\ swipe_direction (-20) (-90) = "UP".
Proof.
  split.
  - refine (proj1 (proj1 (swipe_classification 80 10) _) _);
      vm_compute; reflexivity.
  - refine (proj1 (proj2 (proj1 (proj2 (swipe_classification (-20) (-90)))
                            _)) _);
      vm_compute; reflexivity.
Defined.


(** ** Update events and the [active] flag *)

(** C2, as stated, fails: both sessions of the initial state are inactive,
    yet a swipe Update and a pinch Update change their accumulators. *)
Lemma idle_update_changes_accumulators :
  swipe_active (swipe initial_state) = false /\
  pinch_active (pinch initial_state) = false /\
  swipe (handle_event (fun _ => 0) (GESTURE_SWIPE_UPDATE 5 7)
           initial_state).1 <> swipe initial_state /\
  pinch (handle_event (fun _ => 0) (GESTURE_PINCH_UPDATE 2 5 7)
           initial_state).1 <> pinch initial_state.
Proof.
  repeat apply conj; try reflexivity.
  - intros H.
    apply (f_equal (fun sw => (swipe_dx sw =? 0)%float)) in H.
    vm_compute in H. discriminate.
  - intros H.
    apply (f_equal (fun pi => (pinch_scale pi =? 1)%float)) in H.
    vm_compute in H. discriminate.
Qed.

(** C2, amended.  An Update event never reads or writes the [active] flag
    or the finger count: whether the session is active or not, a swipe
    Update adds its deltas to the swipe accumulators, a pinch Update
    multiplies the scale by its factor and adds its deltas, and nothing
    else of the program state changes and nothing is written or executed. *)
Theorem update_applies_regardless_of_active
    (exit_status : string -> Z) (st : State) (scale dx dy : float) :
  (let st' := (handle_event exit_status (GESTURE_SWIPE_UPDATE dx dy) st).1 in
   swipe_active (swipe st') = swipe_active (swipe st) /\
   swipe_fingers (swipe st') = swipe_fingers (swipe st) /\
   swipe_dx (swipe st') = (swipe_dx (swipe st) + dx)%float /\
   swipe_dy (swipe st') = (swipe_dy (swipe st) + dy)%float /\
   st' = set_swipe (swipe st') st) /\
  (handle_event exit_status (GESTURE_SWIPE_UPDATE dx dy) st).2 = [] /\
  (let st' :=
     (handle_event exit_status (GESTURE_PINCH_UPDATE scale dx dy) st).1 in
   pinch_active (pinch st') = pinch_active (pinch st) /\
   pinch_fingers (pinch st') = pinch_fingers (pinch st) /\
   pinch_scale (pinch st') = (pinch_scale (pinch st) * scale)%float /\
   pinch_dx (pinch st') = (pinch_dx (pinch st) + dx)%float /\
   pinch_dy (pinch st') = (pinch_dy (pinch st) + dy)%float /\
   st' = set_pinch (pinch st') st) /\
  (handle_event exit_status (GESTURE_PINCH_UPDATE scale dx dy) st).2 = [].
Proof. repeat apply conj; reflexivity. Qed.

(** ** Pinch classification *)

(** [scale < 0.9] excludes [scale > 1.1]. *)
Lemma below_out_threshold_not_above_in (scale : float) :
  (scale <? pinch_out_threshold)%float = true ->
  (pinch_in_threshold <? scale)%float = false.
Proof.
  intros H. destruct (pinch_in_threshold <? scale)%float eqn:E; [|reflexivity].
  pose proof (Double.ltb_trans _ _ _ E H) as Habs.
  vm_compute in Habs. discriminate.
Qed.

(** C5.  Pinch classification.  At pinch End the program writes exactly one
    line, chosen by the accumulated scale alone: zoom-in when
    [scale > 1.1], zoom-out when [scale < 0.9], the neutral message
    otherwise.  The line does not depend on the binding table, nothing is
    executed, and no state but the pinch session's [active] flag changes. *)
Theorem pinch_classification (exit_status : string -> Z) (st : State) :
  let scale := pinch_scale (pinch st) in
  let res := handle_event exit_status GESTURE_PINCH_END st in
  res.2 = [Stdout (pinch_verdict scale)] /\
  ((pinch_in_threshold <? scale)%float = true ->
     pinch_verdict scale = "Detected pinch out (zoom in)") /\
  ((scale <? pinch_out_threshold)%float = true ->
     pinch_verdict scale = "Detected pinch in (zoom out)") /\
  ((pinch_in_threshold <? scale)%float = false ->
   (scale <? pinch_out_threshold)%float = false ->
     pinch_verdict scale = "Minor pinch, no zoom direction detected") /\
  executed res.2 = [] /\
  (forall bindings,
     (handle_event exit_status GESTURE_PINCH_END
        (set_gesture_bindings bindings st)).2 = res.2) /\
  res.1 =
    set_pinch (mkPinch scale (pinch_dx (pinch st)) (pinch_dy (pinch st))
                 (pinch_fingers (pinch st)) false) st.
Proof.
  cbv zeta. repeat apply conj; try reflexivity.
  - unfold pinch_verdict. intros ->. reflexivity.
  - unfold pinch_verdict. intros H.
    rewrite (below_out_threshold_not_above_in _ H), H. reflexivity.
  - unfold pinch_verdict. intros -> ->. reflexivity.
Qed.

Lemma pinch_classification_witness :
  pinch_verdict (pinch_scale (pinch (set_pinch (mkPinch 0.5 0 0 2 true)
                                       initial_state)))
    = "Detected pinch in (zoom out)".
Proof.
  refine (proj1 (proj2 (proj2
            (pinch_classification (fun _ => 0)
               (set_pinch (mkPinch 0.5 0 0 2 true) initial_state)))) _).
  vm_compute. reflexivity.
Defined.

(** The pinch boundaries of the specification, on the products the
    Update events compute from the Begin value [1.0]. *)
Example pinch_boundaries :
  pinch_verdict (1 * 0x1.3333333333333p+0 * 1)
    = "Detected pinch out (zoom in)" /\
  pinch_verdict (1 * 0.5 * 0x1.999999999999ap+0)
    = "Detected pinch in (zoom out)" /\
  pinch_verdict 1 = "Minor pinch, no zoom direction detected".
Proof. repeat apply conj; vm_compute; reflexivity. Qed.

(** ** Dispatch *)

(** C6.  Dispatch.  When the key is bound, the bound command is handed to
    [std::system] exactly once, and the result does not depend on what
    [std::system] returns; when the key is not bound, the only effect is the
    "No binding found" line and nothing is executed.  In both cases the
    program state, the binding table included, is unchanged. *)
Theorem dispatch_hit_or_miss
    (exit_status : string -> Z) (key : BindingKey) (st : State) :
  (forall command,
     lookupBinding key (gesture_bindings st) = Some command ->
     executed (dispatch exit_status key st).2 = [command]) /\
  (lookupBinding key (gesture_bindings st) = None ->
     (dispatch exit_status key st).2
       = [Stdout "No binding found for this gesture"] /\
     executed (dispatch exit_status key st).2 = []) /\
  (forall exit_status',
     dispatch exit_status' key st = dispatch exit_status key st) /\
  (dispatch exit_status key st).1 = st /\
  gesture_bindings (dispatch exit_status key st).1 = gesture_bindings st.
Proof.
  unfold dispatch, lookupBinding.
  destruct (gesture_bindings st !! key) as [command|]; cbv zeta.
  - repeat apply conj; try reflexivity.
    + intros c [= <-]. reflexivity.
    + discriminate.
  - repeat apply conj; try reflexivity.
    + discriminate.
    + intros _. split; reflexivity.
Qed.

Lemma dispatch_hit_or_miss_witness :
  executed (dispatch (fun _ => 0) (3, "LEFT") bound_state).2
    = ["gnome-terminal"] /\
  executed (dispatch (fun _ => 0) (4, "UP") bound_state).2 = [].
Proof.
  split.
  - refine (proj1 (dispatch_hit_or_miss (fun _ => 0) (3, "LEFT") bound_state)
              "gnome-terminal" _).
    vm_compute. reflexivity.
  - refine (proj2 (proj1 (proj2
              (dispatch_hit_or_miss (fun _ => 0) (4, "UP") bound_state)) _)).
    vm_compute. reflexivity.
Defined.

(** ** Hold events *)

(** C9, as stated, fails in its first half: there is no hold session to
    toggle.  No observation of the program state tells the state after a
    Hold Begin from the state after a Hold End. *)
Lemma hold_has_no_active_flag :
  ~ exists hold_active : State -> bool,
      hold_active
        (handle_event (fun _ => 0) (GESTURE_HOLD_BEGIN 1) initial_state).1
        = true /\
      hold_active
        (handle_event (fun _ => 0) (GESTURE_HOLD_END 1) initial_state).1
        = false.
Proof. intros [f [Hb He]]. simpl in Hb, He. congruence. Qed.

(** C9, amended.  Hold Begin and Hold End change no program state at all
    (the program keeps no hold session and no hold [active] flag): the
    swipe and pinch accumulators, both tables and the custom commands are
    as before, and nothing is written or executed. *)
Theorem hold_events_change_nothing
    (exit_status : string -> Z) (finger_count : Z) (st : State) :
  handle_event exit_status (GESTURE_HOLD_BEGIN finger_count) st = (st, []) /\
  handle_event exit_status (GESTURE_HOLD_END finger_count) st = (st, []).
Proof. split; reflexivity. Qed.


(** ** The binding table *)

Section BindingTable.

Implicit Types (key : BindingKey) (bindings : gmap BindingKey string).
Implicit Types (commands : list string) (command : string).

Lemma std_find_Some commands command i :
  std_find commands command = Some i -> commands !! i = Some command.
Proof.
  revert i. induction commands as [|c commands IH]; intros i; simpl.
  - discriminate.
  - destruct (String.eqb_spec c command) as [->|Hne].
    + intros [= <-]. reflexivity.
    + destruct (std_find commands command) as [j|]; simpl; [|discriminate].
      intros [= <-]. simpl. apply IH. reflexivity.
Qed.

Lemma std_find_None commands command :
  std_find commands command = None -> command ∉ commands.
Proof.
  induction commands as [|c commands IH]; simpl.
  - intros _. apply not_elem_of_nil.
  - destruct (String.eqb_spec c command) as [->|Hne]; [discriminate|].
    destruct (std_find commands command) as [j|]; simpl; [discriminate|].
    intros _. apply not_elem_of_cons. split; [congruence|]. apply IH.
    reflexivity.
Qed.

(** [std::find] succeeds exactly on the members of the vector. *)
Lemma found_elem_of commands command :
  found commands command = true <-> command ∈ commands.
Proof.
  unfold found. destruct (std_find commands command) as [i|] eqn:E.
  - split; [intros _|reflexivity].
    apply std_find_Some in E. eapply list_elem_of_lookup_2, E.
  - split; [discriminate|]. intros Hin.
    exfalso. exact (std_find_None _ _ E Hin).
Qed.

(** The pruning loop, entry by entry: an entry survives exactly when its
    command is found. *)
Lemma pruneStaleBindings_lookup commands bindings key :
  pruneStaleBindings commands bindings !! key =
    match bindings !! key with
    | Some command => if found commands command then Some command else None
    | None => None
    end.
Proof.
  unfold pruneStaleBindings.
  set (body := fun (k : BindingKey) (cmd : string)
                   (acc : gmap BindingKey string) =>
                 if found commands cmd then acc else delete k acc).
  assert (Hgen : forall start visited : gmap BindingKey string,
             forall k,
               map_fold body start visited !! k =
                 match visited !! k with
                 | Some command =>
                     if found commands command then start !! k else None
                 | None => start !! k
                 end).
  { intros start visited. revert visited.
    apply (map_fold_weak_ind
             (fun r (m : gmap BindingKey string) => forall k,
                r !! k = match m !! k with
                         | Some command =>
                             if found commands command then start !! k
                             else None
                         | None => start !! k
                         end)).
    - intros k. rewrite lookup_empty. reflexivity.
    - intros i x m r Hi IH k. unfold body.
      destruct (decide (i = k)) as [->|Hne].
      + rewrite lookup_insert_eq.
        destruct (found commands x).
        * rewrite IH, Hi. reflexivity.
        * apply lookup_delete_eq.
      + rewrite lookup_insert_ne by assumption.
        destruct (found commands x).
        * apply IH.
        * rewrite lookup_delete_ne by assumption. apply IH. }
  rewrite Hgen. destruct (bindings !! key) as [command|]; reflexivity.
Qed.

Lemma setBinding_lookup key command bindings key' :
  setBinding key command bindings !! key' =
    if decide (key = key')
    then (if String.eqb command "None" then None else Some command)
    else bindings !! key'.
Proof.
  unfold setBinding. destruct (String.eqb command "None").
  - rewrite lookup_delete. destruct (decide (key = key')); reflexivity.
  - rewrite lookup_insert. destruct (decide (key = key')); reflexivity.
Qed.

End BindingTable.

(** Invariants carried through a loop. *)
Lemma for_each_invariant {A : Type} (P : State -> Prop)
    (body : A -> State -> State * list effect) (l : list A) (st : State) :
  (forall x st', x ∈ l -> P st' -> P (body x st').1) ->
  P st -> P (for_each body l st).1.
Proof.
  revert st. induction l as [|x l IH]; intros st Hbody Hst; simpl.
  - exact Hst.
  - destruct (body x st) as [st1 out1] eqn:E1.
    destruct (for_each body l st1) as [st2 out2] eqn:E2. simpl.
    change st2 with (st2, out2).1. rewrite <- E2. apply IH.
    + intros y st' Hy. apply Hbody. apply elem_of_cons. right. exact Hy.
    + change st1 with (st1, out1).1. rewrite <- E1. apply Hbody.
      * apply elem_of_cons. left. reflexivity.
      * exact Hst.
Qed.

(** C7.  Binding idempotence.  Setting a binding twice leaves the table as
    setting it once (for every command, the sentinel included), and
    unbinding a key the table does not hold leaves the table as it was.
    The same holds of the whole program state for a repeated click on the
    same combo entry. *)
Theorem setBinding_idempotent
    (key : BindingKey) (command : string) (bindings : gmap BindingKey string) :
  setBinding key command (setBinding key command bindings)
    = setBinding key command bindings /\
  (bindings !! key = None -> setBinding key "None" bindings = bindings) /\
  (forall i st,
     (select_command key i command (select_command key i command st).1).1
       = (select_command key i command st).1).
Proof.
  repeat apply conj.
  - unfold setBinding. destruct (String.eqb command "None").
    + apply delete_delete_eq.
    + apply insert_insert_eq.
  - intros Hnone. unfold setBinding. simpl. apply delete_id, Hnone.
  - intros i st. unfold select_command, set_gesture_bindings,
      set_selected_command_indices. simpl.
    rewrite insert_insert_eq. f_equal.
    unfold setBinding. destruct (String.eqb command "None").
    + apply delete_delete_eq.
    + apply insert_insert_eq.
Qed.

Lemma setBinding_idempotent_witness :
  setBinding (3, "LEFT") "None" (gesture_bindings initial_state)
    = gesture_bindings initial_state.
Proof.
  refine (proj1 (proj2
            (setBinding_idempotent (3, "LEFT") "gnome-terminal"
               (gesture_bindings initial_state))) _).
  reflexivity.
Defined.


(** ** Consistency of the table with the catalog *)

Section FrameInvariants.

Variable Q : gmap BindingKey string -> Prop.

(** A combo box only changes the table through [setBinding] on its own key
    with a command of the catalog it shows, and never touches
    [user_commands]. *)
Lemma combo_preserves (gui : gui_input) (commands : list string)
    (key : BindingKey) (u : list string) (st : State) :
  (forall i command b,
     commands !! i = Some command -> Q b -> Q (setBinding key command b)) ->
  user_commands st = u /\ Q (gesture_bindings st) ->
  user_commands (combo gui commands key st).1 = u /\
  Q (gesture_bindings (combo gui commands key st).1).
Proof.
  intros Hset Hst. unfold combo.
  set (st0 := match selected_command_indices st !! key with
              | Some _ => st
              | None => _
              end).
  assert (Hst0 : user_commands st0 = u /\ Q (gesture_bindings st0)).
  { unfold st0. destruct (selected_command_indices st !! key); exact Hst. }
  clearbody st0. destruct (combo_open gui key); [|exact Hst0].
  apply (for_each_invariant
           (fun s => user_commands s = u /\ Q (gesture_bindings s)));
    [|exact Hst0].
  intros [i command] st' Hin [Hu HQ].
  apply elem_of_lookup_imap in Hin as (j & c & Heq & Hj).
  injection Heq as -> ->.
  destruct (selectable_clicked gui key j); simpl; [|split; assumption].
  split; [exact Hu|]. eapply Hset; eassumption.
Qed.

(** The frame: if pruning and every displayed combo preserve [Q], the
    frame preserves [Q]. *)
Lemma frame_preserves (gui : gui_input) (st : State) :
  (forall commands b, Q b -> Q (pruneStaleBindings commands b)) ->
  (forall key command b,
     key ∈ displayed_keys -> Q b -> Q (setBinding key command b)) ->
  Q (gesture_bindings st) ->
  Q (gesture_bindings (frame gui st).1).
Proof.
  intros Hprune Hset Hst. unfold frame.
  set (st1 := set_custom_cmd _ st).
  set (st2 := if add_clicked gui then add_button st1 else st1).
  set (commands := all_commands (user_commands st2)).
  set (st4 := set_selected_command_indices _ _).
  assert (H2 : gesture_bindings st2 = gesture_bindings st).
  { unfold st2. destruct (add_clicked gui); reflexivity. }
  apply (for_each_invariant
           (fun s => user_commands s = user_commands st2 /\
                     Q (gesture_bindings s))).
  - intros key st' Hkey Hst'. apply combo_preserves; [|exact Hst'].
    intros i command b _ Hb. exact (Hset key command b Hkey Hb).
  - split; [reflexivity|]. simpl. apply Hprune. rewrite H2. exact Hst.
Qed.

End FrameInvariants.

Lemma pruneStaleBindings_consistent commands bindings :
  consistent commands (pruneStaleBindings commands bindings).
Proof.
  intros key command. unfold lookupBinding.
  rewrite pruneStaleBindings_lookup.
  destruct (bindings !! key) as [c|]; [|discriminate].
  destruct (found commands c) eqn:E; [|discriminate].
  intros [= <-]. apply found_elem_of, E.
Qed.

Lemma setBinding_consistent commands key command bindings :
  command ∈ commands -> consistent commands bindings ->
  consistent commands (setBinding key command bindings).
Proof.
  intros Hin Hb key' c. unfold lookupBinding.
  rewrite setBinding_lookup. destruct (decide (key = key')).
  - destruct (String.eqb command "None"); [discriminate|].
    intros [= <-]. exact Hin.
  - apply Hb.
Qed.

(** After a frame the table is consistent with the catalog of the same
    frame: pruning ran on the catalog that already holds the command added
    in this frame, before the re-sync and before any combo was shown, and
    the combos bind catalog members only. *)
Lemma frame_consistent (gui : gui_input) (st : State) :
  consistent (all_commands (user_commands (frame gui st).1))
    (gesture_bindings (frame gui st).1).
Proof.
  unfold frame.
  set (st1 := set_custom_cmd _ st).
  set (st2 := if add_clicked gui then add_button st1 else st1).
  set (commands := all_commands (user_commands st2)).
  set (st4 := set_selected_command_indices _ _).
  enough (H : user_commands
                (for_each (combo gui commands) displayed_keys st4).1
              = user_commands st2 /\
              consistent commands
                (gesture_bindings
                   (for_each (combo gui commands) displayed_keys st4).1)).
  { destruct H as [-> H]. exact H. }
  apply (for_each_invariant
           (fun s => user_commands s = user_commands st2 /\
                     consistent commands (gesture_bindings s))).
  - intros key st' _ Hst'.
    apply (combo_preserves (consistent commands)); [|exact Hst'].
    intros i command b Hi Hb. apply setBinding_consistent; [|exact Hb].
    eapply list_elem_of_lookup_2, Hi.
  - split; [reflexivity|]. simpl. apply pruneStaleBindings_consistent.
Qed.

(** C3.  Consistency after pruning.  Right after [pruneStaleBindings], for
    every key, [lookupBinding] is empty or returns a command of the catalog
    pruned against; pruning keeps every binding whose command is in the
    catalog.  In the frame the pruning precedes the re-sync of
    [selected_command_indices] and the display, and the table the frame
    leaves is consistent with the catalog the frame leaves. *)
Theorem prune_consistency
    (commands : list string) (bindings : gmap BindingKey string)
    (key : BindingKey) :
  (lookupBinding key (pruneStaleBindings commands bindings) = None \/
   exists command,
     lookupBinding key (pruneStaleBindings commands bindings) = Some command
     /\ command ∈ commands) /\
  (forall command,
     lookupBinding key bindings = Some command -> command ∈ commands ->
     lookupBinding key (pruneStaleBindings commands bindings)
       = Some command) /\
  (forall gui st,
     let st2 :=
       let st1 := set_custom_cmd (input_text gui (custom_cmd st)) st in
       if add_clicked gui then add_button st1 else st1 in
     let catalog := all_commands (user_commands st2) in
     let pruned := pruneStaleBindings catalog (gesture_bindings st2) in
     frame gui st =
       for_each (combo gui catalog) displayed_keys
         (set_selected_command_indices
            (sync_selected_commands catalog pruned ∅)
            (set_gesture_bindings pruned st2)) /\
     consistent catalog pruned /\
     consistent (all_commands (user_commands (frame gui st).1))
       (gesture_bindings (frame gui st).1)).
Proof.
  repeat apply conj.
  - destruct (lookupBinding key (pruneStaleBindings commands bindings))
      as [command|] eqn:E; [right|left; reflexivity].
    exists command. split; [reflexivity|].
    exact (pruneStaleBindings_consistent _ _ _ _ E).
  - intros command Hb Hin. unfold lookupBinding in *.
    rewrite pruneStaleBindings_lookup, Hb.
    apply found_elem_of in Hin. rewrite Hin. reflexivity.
  - intros gui st. cbv zeta. repeat apply conj.
    + reflexivity.
    + apply pruneStaleBindings_consistent.
    + apply frame_consistent.
Qed.

(** Pruning against the catalog without custom commands keeps the binding
    [(3, "LEFT") -> "gnome-terminal"] of [bound_state]. *)
Lemma prune_consistency_witness :
  lookupBinding (3, "LEFT")
    (pruneStaleBindings (all_commands []) (gesture_bindings bound_state))
    = Some "gnome-terminal".
Proof.
  refine (proj1 (proj2
            (prune_consistency (all_commands [])
               (gesture_bindings bound_state) (3, "LEFT")))
            "gnome-terminal" _ _).
  - vm_compute. reflexivity.
  - apply found_elem_of. vm_compute. reflexivity.
Defined.

(** Scenario C of the specification: a binding to ["lock-screen"] does not
    survive pruning against a catalog that does not hold it. *)
Example prune_removes_lock_screen :
  lookupBinding (4, "DOWN")
    (pruneStaleBindings (all_commands [])
       (setBinding (4, "DOWN") "lock-screen" ∅)) = None /\
  lookupBinding (4, "DOWN")
    (pruneStaleBindings (all_commands ["lock-screen"])
       (setBinding (4, "DOWN") "lock-screen" ∅)) = Some "lock-screen".
Proof. split; vm_compute; reflexivity. Qed.


(** ** The keys of the table *)

Lemma displayed_keys_bindable (key : BindingKey) :
  key ∈ displayed_keys -> bindable key.
Proof.
  unfold displayed_keys, directions. simpl. intros H.
  repeat (apply elem_of_cons in H as [->|H];
          [unfold bindable, directions; simpl; split;
           [auto|set_solver]|]).
  apply elem_of_nil in H. destruct H.
Qed.

Lemma pruneStaleBindings_within_surface commands bindings :
  within_surface bindings ->
  within_surface (pruneStaleBindings commands bindings).
Proof.
  intros Hb key command. rewrite pruneStaleBindings_lookup.
  destruct (bindings !! key) as [c|] eqn:E; [|discriminate].
  intros _. exact (Hb key c E).
Qed.

Lemma setBinding_within_surface key command bindings :
  key ∈ displayed_keys -> within_surface bindings ->
  within_surface (setBinding key command bindings).
Proof.
  intros Hkey Hb key' c. rewrite setBinding_lookup.
  destruct (decide (key = key')) as [<-|Hne].
  - intros _. apply displayed_keys_bindable, Hkey.
  - apply Hb.
Qed.

(** No device event writes to the table. *)
Lemma handle_event_bindings exit_status ev st :
  gesture_bindings (handle_event exit_status ev st).1 = gesture_bindings st.
Proof.
  destruct ev; try reflexivity.
  simpl. unfold swipe_end.
  destruct (String.eqb _ ""); [reflexivity|].
  unfold dispatch. simpl.
  destruct (gesture_bindings st !! _); reflexivity.
Qed.

Lemma handle_events_bindings exit_status evs st :
  gesture_bindings (handle_events exit_status evs st).1 = gesture_bindings st.
Proof.
  unfold handle_events.
  apply (for_each_invariant
           (fun s => gesture_bindings s = gesture_bindings st));
    [|reflexivity].
  intros ev st' _ <-. apply handle_event_bindings.
Qed.

Lemma reachable_within_surface st :
  reachable st -> within_surface (gesture_bindings st).
Proof.
  induction 1 as [|exit_status evs gui st Hst IH].
  - intros key command. simpl. rewrite lookup_empty. discriminate.
  - unfold main_loop_iteration.
    destruct (handle_events exit_status evs st) as [st1 out1] eqn:E1.
    destruct (frame gui st1) as [st2 out2] eqn:E2. simpl.
    change st2 with (st2, out2).1. rewrite <- E2.
    apply (frame_preserves within_surface).
    + intros commands b. apply pruneStaleBindings_within_surface.
    + intros key command b. apply setBinding_within_surface.
    + change st1 with (st1, out1).1. rewrite <- E1.
      rewrite handle_events_bindings. exact IH.
Qed.

(** C10.  In every reachable state, every key of the binding table has
    three or four fingers and one of the four directions.  Binding or
    unbinding a displayed key and pruning keep it so, device events leave
    the table alone, and a dispatch for any other key is a miss. *)
Theorem bindings_stay_within_surface (st : State) :
  reachable st ->
  within_surface (gesture_bindings st) /\
  (forall key command,
     key ∈ displayed_keys ->
     within_surface (setBinding key command (gesture_bindings st))) /\
  (forall commands,
     within_surface (pruneStaleBindings commands (gesture_bindings st))) /\
  (forall exit_status ev,
     gesture_bindings (handle_event exit_status ev st).1
       = gesture_bindings st) /\
  (forall exit_status evs gui,
     within_surface
       (gesture_bindings (main_loop_iteration exit_status evs gui st).1)) /\
  (forall exit_status key,
     ~ bindable key ->
     dispatch exit_status key st
       = (st, [Stdout "No binding found for this gesture"])).
Proof.
  intros Hst. pose proof (reachable_within_surface st Hst) as Hin.
  repeat apply conj.
  - exact Hin.
  - intros key command Hkey. apply setBinding_within_surface; assumption.
  - intros commands. apply pruneStaleBindings_within_surface, Hin.
  - intros exit_status ev. apply handle_event_bindings.
  - intros exit_status evs gui. apply reachable_within_surface.
    constructor. exact Hst.
  - intros exit_status key Hkey. unfold dispatch.
    destruct (gesture_bindings st !! key) as [command|] eqn:E;
      [|reflexivity].
    exfalso. apply Hkey. exact (Hin key command E).
Qed.

Example bound_state_binding :
  gesture_bindings bound_state !! (3, "LEFT") = Some "gnome-terminal" /\
  gesture_bindings bound_state !! (4, "LEFT") = None.
Proof. split; vm_compute; reflexivity. Qed.

Lemma bindings_stay_within_surface_witness :
  reachable bound_state /\
  within_surface (gesture_bindings bound_state) /\
  dispatch (fun _ => 0) (5, "LEFT") bound_state
    = (bound_state, [Stdout "No binding found for this gesture"]).
Proof.
  assert (H : reachable bound_state).
  { unfold bound_state. apply reachable_iteration, reachable_initial. }
  split; [exact H|].
  destruct (bindings_stay_within_surface bound_state H)
    as (Hin & _ & _ & _ & _ & Hmiss).
  split; [exact Hin|].
  apply Hmiss. unfold bindable. simpl. intros [[Hf|Hf] _]; discriminate.
Defined.


(** ** The custom-command catalog *)

(** What the "Add" test does: the command is appended exactly when it is
    non-empty and not yet among the user's own commands. *)
Lemma addCustomAction_appends (cmd : string) (user : list string) :
  (cmd <> "" /\ cmd ∉ user -> addCustomAction cmd user = user ++ [cmd]) /\
  (cmd = "" \/ cmd ∈ user -> addCustomAction cmd user = user).
Proof.
  unfold addCustomAction. split.
  - intros [Hne Hnin].
    destruct (String.eqb_spec cmd "") as [->|_]; [congruence|].
    destruct (found user cmd) eqn:E; [|reflexivity].
    apply found_elem_of in E. contradiction.
  - intros [->|Hin]; [reflexivity|].
    apply found_elem_of in Hin. rewrite Hin.
    rewrite andb_false_r. reflexivity.
Qed.

(** The user's own section never holds a command twice. *)
Lemma addCustomAction_NoDup (cmd : string) (user : list string) :
  NoDup user -> NoDup (addCustomAction cmd user).
Proof.
  intros Hnd. unfold addCustomAction.
  destruct (negb (String.eqb cmd "")); simpl; [|exact Hnd].
  destruct (found user cmd) eqn:E; simpl; [exact Hnd|].
  apply NoDup_app. split; [exact Hnd|]. split.
  - intros x Hx Hx'. apply list_elem_of_singleton in Hx'. subst x.
    apply found_elem_of in Hx. congruence.
  - apply NoDup_singleton.
Qed.

(** C4, on the code.  ["gnome-terminal"] is a predefined command, yet
    adding it as a custom command appends it: the test looks in
    [user_commands] only, and the catalog then holds it twice. *)
Theorem addCustomAction_misses_predefined :
  "gnome-terminal" ∈ all_commands [] /\
  addCustomAction "gnome-terminal" [] = ["gnome-terminal"] /\
  user_commands (frame add_gnome_terminal initial_state).1
    = ["gnome-terminal"] /\
  all_commands (addCustomAction "gnome-terminal" []) <> all_commands [] /\
  ~ NoDup (all_commands (addCustomAction "gnome-terminal" [])).
Proof.
  repeat apply conj.
  - unfold all_commands, predefined_commands. set_solver.
  - reflexivity.
  - vm_compute. reflexivity.
  - vm_compute. discriminate.
  - vm_compute. intros H.
    apply NoDup_cons in H as [_ H]. apply NoDup_cons in H as [_ H].
    apply NoDup_cons in H as [Hnin _]. apply Hnin. set_solver.
Qed.


(** ** Accumulation *)

Lemma for_each_app {A : Type} (body : A -> State -> State * list effect)
    (l1 l2 : list A) (st : State) :
  for_each body (l1 ++ l2) st =
    let '(st1, out1) := for_each body l1 st in
    let '(st2, out2) := for_each body l2 st1 in
    (st2, out1 ++ out2).
Proof.
  revert st. induction l1 as [|x l1 IH]; intros st; simpl.
  - destruct (for_each body l2 st) as [st2 out2]. reflexivity.
  - destruct (body x st) as [st1 out1]. rewrite IH.
    destruct (for_each body l1 st1) as [st1' out1'].
    destruct (for_each body l2 st1') as [st2 out2].
    rewrite app_assoc. reflexivity.
Qed.

Section Accumulation.

Variable exit_status : string -> Z.

(** Update events fold their samples into the accumulators, whatever the
    accumulators held. *)
Lemma swipe_updates_run (samples : list (float * float)) (st : State) :
  handle_events exit_status (swipe_updates samples) st =
    (set_swipe
       (mkSwipe (fold_left PrimFloat.add (map fst samples)
                   (swipe_dx (swipe st)))
                (fold_left PrimFloat.add (map snd samples)
                   (swipe_dy (swipe st)))
                (swipe_active (swipe st)) (swipe_fingers (swipe st))) st,
     []).
Proof.
  unfold handle_events. revert st.
  induction samples as [|[dx dy] samples IH]; intros st.
  - destruct st as [[] ? ? ? ? ?]. reflexivity.
  - simpl. rewrite IH. reflexivity.
Qed.

Lemma pinch_updates_run (samples : list (float * float * float))
    (st : State) :
  handle_events exit_status (pinch_updates samples) st =
    (set_pinch
       (mkPinch (fold_left PrimFloat.mul (map (fun s => s.1.1) samples)
                   (pinch_scale (pinch st)))
                (fold_left PrimFloat.add (map (fun s => s.1.2) samples)
                   (pinch_dx (pinch st)))
                (fold_left PrimFloat.add (map snd samples)
                   (pinch_dy (pinch st)))
                (pinch_fingers (pinch st)) (pinch_active (pinch st))) st,
     []).
Proof.
  unfold handle_events. revert st.
  induction samples as [|[[sc dx] dy] samples IH]; intros st.
  - destruct st as [? [] ? ? ? ?]. reflexivity.
  - simpl. rewrite IH. reflexivity.
Qed.

(** A whole swipe occurrence: End classifies the rounded running sums. *)
Lemma swipe_session_run (fingers : Z) (samples : list (float * float))
    (st : State) :
  handle_events exit_status (swipe_session fingers samples) st =
    swipe_end exit_status
      (set_swipe
         (mkSwipe (double_sum (map fst samples))
                  (double_sum (map snd samples)) true fingers) st).
Proof.
  unfold swipe_session, handle_events. simpl.
  rewrite for_each_app.
  pose proof (swipe_updates_run samples
                (set_swipe (mkSwipe 0 0 true fingers) st)) as Hrun.
  unfold handle_events in Hrun. rewrite Hrun. simpl.
  unfold double_sum.
  destruct (swipe_end exit_status _) as [st2 out2]. simpl.
  rewrite app_nil_r. reflexivity.
Qed.

Lemma pinch_session_run (fingers : Z)
    (samples : list (float * float * float)) (st : State) :
  handle_events exit_status (pinch_session fingers samples) st =
    handle_event exit_status GESTURE_PINCH_END
      (set_pinch
         (mkPinch (double_product (map (fun s => s.1.1) samples))
                  (double_sum (map (fun s => s.1.2) samples))
                  (double_sum (map snd samples)) fingers true) st).
Proof.
  unfold pinch_session, handle_events. simpl.
  rewrite for_each_app.
  pose proof (pinch_updates_run samples
                (set_pinch (mkPinch 1 0 0 fingers true) st)) as Hrun.
  unfold handle_events in Hrun. rewrite Hrun. reflexivity.
Qed.

End Accumulation.

(** C8, as stated, fails.  The [dx] samples of [absorbed_split] sum to
    exactly [51] and its [dy] samples to [0], but the running double sum
    absorbs the [51] ([2^60 + 51] rounds to [2^60]): the accumulators end
    at [(0, 0)] and End gives no verdict, while the single Update
    [(51, 0)] ends at [(51, 0)] and is classified RIGHT. *)
Lemma split_sum_differs_from_single_update :
  exact_sum (map fst absorbed_split) = exact_value 51 /\
  exact_sum (map snd absorbed_split) = exact_value 0 /\
  swipe (handle_events (fun _ => 0)
           (GESTURE_SWIPE_BEGIN 3 :: swipe_updates absorbed_split)
           initial_state).1
    = mkSwipe 0 0 true 3 /\
  swipe (handle_events (fun _ => 0)
           (GESTURE_SWIPE_BEGIN 3 :: swipe_updates [(51, 0)%float])
           initial_state).1
    = mkSwipe 51 0 true 3 /\
  (handle_events (fun _ => 0) (swipe_session 3 absorbed_split)
     initial_state).2 = [] /\
  (handle_events (fun _ => 0) (swipe_session 3 [(51, 0)%float])
     initial_state).2
    = [Stdout "Detected 3-finger swipe RIGHT";
       Stdout "No binding found for this gesture"].
Proof. repeat apply conj; vm_compute; reflexivity. Qed.

(** The same for the scale: factors whose exact product is [1] drive the
    running double product to [0] by underflow. *)
Example split_product_underflows :
  double_product [0x1p-600; 0x1p-600; 0x1p600; 0x1p600]%float = 0%float /\
  double_product [1%float] = 1%float.
Proof. split; vm_compute; reflexivity. Qed.

(** C8, amended.  The accumulators of a session are the left-to-right
    binary64 sums of the samples from [0.0] (for the pinch scale, the
    product from [1.0]), each step rounded.  Hence any two splits whose
    rounded running sums agree end a swipe in the same state with the same
    verdict and effects, and a split agrees with the single Update
    [(DX, DY)] whenever its rounded running sums are [DX] and [DY] (neither
    being [-0.0]); two pinch splits whose rounded running products and sums
    agree end alike.  Nothing is claimed of the unrounded sum or product. *)
Theorem accumulation_is_rounded_fold
    (exit_status : string -> Z) (fingers : Z)
    (samples samples' : list (float * float))
    (psamples psamples' : list (float * float * float))
    (DX DY : float) (st : State) :
  handle_events exit_status
    (GESTURE_SWIPE_BEGIN fingers :: swipe_updates samples) st
    = (set_swipe (mkSwipe (double_sum (map fst samples))
                    (double_sum (map snd samples)) true fingers) st, []) /\
  (double_sum (map fst samples) = double_sum (map fst samples') ->
   double_sum (map snd samples) = double_sum (map snd samples') ->
   handle_events exit_status (swipe_session fingers samples) st
     = handle_events exit_status (swipe_session fingers samples') st) /\
  (double_sum (map fst samples) = DX ->
   double_sum (map snd samples) = DY ->
   DX <> (-0)%float -> DY <> (-0)%float ->
   handle_events exit_status (swipe_session fingers samples) st
     = handle_events exit_status (swipe_session fingers [(DX, DY)]) st) /\
  handle_events exit_status
    (GESTURE_PINCH_BEGIN fingers :: pinch_updates psamples) st
    = (set_pinch
         (mkPinch (double_product (map (fun s => s.1.1) psamples))
            (double_sum (map (fun s => s.1.2) psamples))
            (double_sum (map snd psamples)) fingers true) st, []) /\
  (double_product (map (fun s => s.1.1) psamples)
     = double_product (map (fun s => s.1.1) psamples') ->
   double_sum (map (fun s => s.1.2) psamples)
     = double_sum (map (fun s => s.1.2) psamples') ->
   double_sum (map snd psamples) = double_sum (map snd psamples') ->
   handle_events exit_status (pinch_session fingers psamples) st
     = handle_events exit_status (pinch_session fingers psamples') st).
Proof.
  repeat apply conj.
  - unfold handle_events. simpl.
    pose proof (swipe_updates_run exit_status samples
                  (set_swipe (mkSwipe 0 0 true fingers) st)) as Hrun.
    unfold handle_events in Hrun. rewrite Hrun. reflexivity.
  - intros Hx Hy. rewrite !swipe_session_run, Hx, Hy. reflexivity.
  - intros Hx Hy HDX HDY. rewrite !swipe_session_run, Hx, Hy.
    unfold double_sum. simpl.
    rewrite (Double.add_zero_l DX HDX), (Double.add_zero_l DY HDY).
    reflexivity.
  - unfold handle_events. simpl.
    pose proof (pinch_updates_run exit_status psamples
                  (set_pinch (mkPinch 1 0 0 fingers true) st)) as Hrun.
    unfold handle_events in Hrun. rewrite Hrun. reflexivity.
  - intros Hs Hx Hy. rewrite !pinch_session_run, Hs, Hx, Hy. reflexivity.
Qed.

(** Scenario A of the specification: two Updates of [(40, 5)] against one
    Update of [(80, 10)]. *)
Lemma accumulation_is_rounded_fold_witness :
  double_sum [40; 40]%float = 80%float /\
  double_sum [5; 5]%float = 10%float /\
  handle_events (fun _ => 0)
    (swipe_session 3 [(40, 5); (40, 5)]%float) initial_state
    = handle_events (fun _ => 0) (swipe_session 3 [(80, 10)%float])
        initial_state.
Proof.
  split; [vm_compute; reflexivity|].
  split; [vm_compute; reflexivity|].
  refine (proj1 (proj2 (proj2
            (accumulation_is_rounded_fold (fun _ => 0) 3
               [(40, 5); (40, 5)]%float [] [] [] 80 10 initial_state)))
            _ _ _ _).
  - vm_compute. reflexivity.
  - vm_compute. reflexivity.
  - intros H. apply (f_equal Prim2SF) in H. vm_compute in H. discriminate.
  - intros H. apply (f_equal Prim2SF) in H. vm_compute in H. discriminate.
Defined.

(** ** End-to-end scenarios *)

(** Scenario A: a three-finger swipe of two Updates [(40, 5)], with
    [(3, "RIGHT")] bound to ["gnome-terminal"], runs the command. *)
Example scenario_A :
  (handle_events (fun _ => 0) (swipe_session 3 [(40, 5); (40, 5)]%float)
     (set_gesture_bindings
        (setBinding (3, "RIGHT") "gnome-terminal" ∅) initial_state)).2
    = [Stdout "Detected 3-finger swipe RIGHT";
       Stdout "Running command: gnome-terminal";
       System "gnome-terminal"].
Proof. vm_compute. reflexivity. Qed.

(** Scenario B: a four-finger swipe of one Update [(-20, -90)] with no
    binding is reported and runs nothing. *)
Example scenario_B :
  (handle_events (fun _ => 0) (swipe_session 4 [(-20, -90)]%float)
     initial_state).2
    = [Stdout "Detected 4-finger swipe UP";
       Stdout "No binding found for this gesture"].
Proof. vm_compute. reflexivity. Qed.


(** * Further properties of the event switch *)

Lemma executed_app (a b : list effect) :
  executed (a ++ b) = executed a ++ executed b.
Proof. unfold executed. apply omap_app. Qed.

(** A device event writes only to [swipe] and [pinch]. *)
Lemma handle_event_sessions_only exit_status ev st :
  (handle_event exit_status ev st).1
    = set_swipe (swipe (handle_event exit_status ev st).1)
        (set_pinch (pinch (handle_event exit_status ev st).1) st).
Proof.
  destruct st as [sw pi b sel u c].
  destruct ev; try reflexivity; try (destruct sw; reflexivity);
    try (destruct pi; reflexivity).
  simpl. unfold swipe_end. simpl.
  destruct (String.eqb _ ""); [reflexivity|].
  unfold dispatch. simpl. destruct (b !! _); reflexivity.
Qed.

(** An event that is not a swipe event leaves [swipe] alone and runs
    nothing. *)
Lemma handle_event_not_swipe exit_status ev st :
  is_swipe_event ev = false ->
  swipe (handle_event exit_status ev st).1 = swipe st /\
  executed (handle_event exit_status ev st).2 = [].
Proof. destruct ev; try discriminate; intros _; split; reflexivity. Qed.

Lemma handle_event_not_pinch exit_status ev st :
  is_pinch_event ev = false ->
  pinch (handle_event exit_status ev st).1 = pinch st.
Proof.
  destruct ev; try discriminate; intros _; try reflexivity.
  simpl. unfold swipe_end.
  destruct (String.eqb _ ""); [reflexivity|].
  unfold dispatch. simpl. destruct (gesture_bindings st !! _); reflexivity.
Qed.

(** What a swipe event does is decided by [swipe] and the table. *)
Lemma handle_event_swipe_congr exit_status ev st st' :
  swipe st = swipe st' -> gesture_bindings st = gesture_bindings st' ->
  swipe (handle_event exit_status ev st).1
    = swipe (handle_event exit_status ev st').1 /\
  (is_swipe_event ev = true ->
   (handle_event exit_status ev st).2 = (handle_event exit_status ev st').2).
Proof.
  intros Hsw Hb. destruct ev; simpl; try (split; [assumption|discriminate]);
    try (rewrite Hsw; split; reflexivity).
  - split; reflexivity.
  - unfold swipe_end. rewrite <- Hsw.
    destruct (String.eqb _ ""); [split; reflexivity|].
    unfold dispatch. simpl. rewrite <- Hb.
    destruct (gesture_bindings st !! _); split; reflexivity.
Qed.

Lemma handle_event_pinch_congr exit_status ev st st' :
  pinch st = pinch st' ->
  pinch (handle_event exit_status ev st).1
    = pinch (handle_event exit_status ev st').1.
Proof.
  intros Hpi. destruct ev; simpl; try assumption; try reflexivity;
    try (rewrite Hpi; reflexivity).
  unfold swipe_end.
  destruct (String.eqb _ ""), (String.eqb _ ""); simpl; try assumption;
    unfold dispatch; simpl;
    repeat match goal with
           | |- context [gesture_bindings ?s !! ?k] =>
               destruct (gesture_bindings s !! k)
           end; assumption.
Qed.

Lemma handle_events_cons exit_status ev evs st :
  handle_events exit_status (ev :: evs) st =
    ((handle_events exit_status evs (handle_event exit_status ev st).1).1,
     (handle_event exit_status ev st).2
       ++ (handle_events exit_status evs
             (handle_event exit_status ev st).1).2).
Proof.
  unfold handle_events. simpl.
  destruct (handle_event exit_status ev st) as [st1 out1]. simpl.
  destruct (for_each _ evs st1) as [st2 out2]. reflexivity.
Qed.

Lemma swipe_projection exit_status evs st st' :
  swipe st = swipe st' -> gesture_bindings st = gesture_bindings st' ->
  swipe (handle_events exit_status evs st).1
    = swipe (handle_events exit_status (List.filter is_swipe_event evs) st').1
  /\
  executed (handle_events exit_status evs st).2
    = executed
        (handle_events exit_status (List.filter is_swipe_event evs) st').2.
Proof.
  revert st st'. induction evs as [|ev evs IH]; intros st st' Hsw Hb.
  - split; [exact Hsw|reflexivity].
  - rewrite handle_events_cons. simpl.
    destruct (is_swipe_event ev) eqn:E.
    + rewrite handle_events_cons. simpl.
      destruct (handle_event_swipe_congr exit_status ev st st' Hsw Hb)
        as [Hsw1 Hout].
      specialize (Hout E).
      assert (Hb1 : gesture_bindings (handle_event exit_status ev st).1
                    = gesture_bindings (handle_event exit_status ev st').1).
      { rewrite !handle_event_bindings. exact Hb. }
      destruct (IH _ _ Hsw1 Hb1) as [IH1 IH2].
      split; [exact IH1|]. rewrite !executed_app, Hout, IH2. reflexivity.
    + destruct (handle_event_not_swipe exit_status ev st E) as [Hsw1 Hout].
      assert (Hb1 : gesture_bindings (handle_event exit_status ev st).1
                    = gesture_bindings st').
      { rewrite handle_event_bindings. exact Hb. }
      destruct (IH _ st' (eq_trans Hsw1 Hsw) Hb1) as [IH1 IH2].
      split; [exact IH1|]. rewrite executed_app, Hout, IH2. reflexivity.
Qed.

Lemma pinch_projection exit_status evs st st' :
  pinch st = pinch st' ->
  pinch (handle_events exit_status evs st).1
    = pinch (handle_events exit_status (List.filter is_pinch_event evs) st').1.
Proof.
  revert st st'. induction evs as [|ev evs IH]; intros st st' Hpi.
  - exact Hpi.
  - rewrite handle_events_cons. simpl.
    destruct (is_pinch_event ev) eqn:E.
    + rewrite handle_events_cons. simpl. apply IH.
      apply handle_event_pinch_congr, Hpi.
    + apply IH. rewrite (handle_event_not_pinch _ _ _ E). exact Hpi.
Qed.

(** X1.  Swipe, pinch and the other events do not interfere: the swipe
    session left by any sequence of events, and the commands the sequence
    runs, are those of its swipe events alone, and the pinch session is
    that of its pinch events alone. *)
Theorem sessions_do_not_interfere
    (exit_status : string -> Z) (evs : list libinput_event) (st : State) :
  swipe (handle_events exit_status evs st).1
    = swipe (handle_events exit_status (List.filter is_swipe_event evs) st).1
  /\
  executed (handle_events exit_status evs st).2
    = executed
        (handle_events exit_status (List.filter is_swipe_event evs) st).2
  /\
  pinch (handle_events exit_status evs st).1
    = pinch (handle_events exit_status (List.filter is_pinch_event evs) st).1.
Proof.
  destruct (swipe_projection exit_status evs st st eq_refl eq_refl)
    as [H1 H2].
  repeat apply conj; [exact H1|exact H2|].
  apply pinch_projection. reflexivity.
Qed.

(** X2.  A session starts afresh: Begin overwrites everything the session
    held, so what a whole swipe occurrence (Begin, Updates, End) does and
    leaves does not depend on the swipe session before it, and likewise for
    a pinch occurrence. *)
Theorem session_starts_afresh
    (exit_status : string -> Z) (fingers : Z)
    (samples : list (float * float))
    (psamples : list (float * float * float))
    (sw : SwipeGesture) (pi : PinchGesture) (st : State) :
  handle_events exit_status (swipe_session fingers samples) (set_swipe sw st)
    = handle_events exit_status (swipe_session fingers samples) st /\
  handle_events exit_status (pinch_session fingers psamples) (set_pinch pi st)
    = handle_events exit_status (pinch_session fingers psamples) st.
Proof.
  split.
  - rewrite !swipe_session_run. reflexivity.
  - rewrite !pinch_session_run. reflexivity.
Qed.


Lemma handle_event_executed_length exit_status ev st :
  (length (executed (handle_event exit_status ev st).2)
   <= if is_swipe_end ev then 1 else 0)%nat.
Proof.
  destruct ev; simpl; try lia.
  unfold swipe_end. destruct (String.eqb _ ""); simpl; [lia|].
  unfold dispatch. simpl. destruct (gesture_bindings st !! _); simpl; lia.
Qed.

(** X4.  Commands are run by swipe End events only, at most one each: the
    number of commands a sequence of events hands to [std::system] is at
    most the number of its swipe End events. *)
Theorem at_most_one_command_per_swipe_end
    (exit_status : string -> Z) (evs : list libinput_event) (st : State) :
  (length (executed (handle_events exit_status evs st).2)
   <= length (List.filter is_swipe_end evs))%nat.
Proof.
  revert st. induction evs as [|ev evs IH]; intros st.
  - simpl. lia.
  - rewrite handle_events_cons. simpl. rewrite executed_app, length_app.
    pose proof (handle_event_executed_length exit_status ev st) as Hev.
    specialize (IH (handle_event exit_status ev st).1).
    destruct (is_swipe_end ev); simpl; lia.
Qed.

(** * Further properties of the frame *)

Lemma frame_unfold (gui : gui_input) (st : State) :
  frame gui st =
    for_each
      (combo gui (all_commands (user_commands (frame_prepare gui st))))
      displayed_keys (frame_prepare gui st).
Proof. reflexivity. Qed.

(** What a combo box can do to the state: default-insert its own
    selection, and apply [select_command] for clicked entries of the
    catalog while it is open. *)
Lemma combo_invariant (P : State -> Prop) (gui : gui_input)
    (commands : list string) (key : BindingKey) (st : State) :
  (forall s,
     P s -> selected_command_indices s !! key = None ->
     P (set_selected_command_indices
          (<[key := 0]> (selected_command_indices s)) s)) ->
  (forall i command s,
     commands !! i = Some command ->
     combo_open gui key = true -> selectable_clicked gui key i = true ->
     P s -> P (select_command key i command s).1) ->
  P st -> P (combo gui commands key st).1.
Proof.
  intros Hdef Hsel Hst. unfold combo.
  set (st0 := match selected_command_indices st !! key with
              | Some _ => st
              | None => _
              end).
  assert (Hst0 : P st0).
  { unfold st0. destruct (selected_command_indices st !! key) eqn:E;
      [exact Hst|]. apply Hdef; assumption. }
  clearbody st0. destruct (combo_open gui key) eqn:Hopen; [|exact Hst0].
  apply (for_each_invariant P); [|exact Hst0].
  intros [i command] s Hin Hs.
  apply elem_of_lookup_imap in Hin as (j & c & Heq & Hj).
  injection Heq as -> ->.
  destruct (selectable_clicked gui key j) eqn:Hclick; [|exact Hs].
  eapply Hsel; eauto.
Qed.

(** [std::find] returns the first position. *)
Lemma std_find_first (commands : list string) (command : string) (i : nat) :
  std_find commands command = Some i ->
  forall j, (j < i)%nat -> commands !! j <> Some command.
Proof.
  revert i. induction commands as [|c commands IH]; intros i; simpl.
  - discriminate.
  - destruct (String.eqb_spec c command) as [->|Hne].
    + intros [= <-] j Hj. lia.
    + destruct (std_find commands command) as [k|] eqn:E; simpl;
        [|discriminate].
      intros [= <-] [|j] Hj; simpl.
      * congruence.
      * apply (IH k eq_refl). lia.
Qed.

(** [sync_selected_commands], key by key. *)
Lemma sync_selected_commands_lookup (commands : list string)
    (bindings : gmap BindingKey string) (selected : gmap BindingKey Z)
    (key : BindingKey) :
  sync_selected_commands commands bindings selected !! key =
    match bindings !! key with
    | Some command =>
        match std_find commands command with
        | Some i => Some (Z.of_nat i)
        | None => selected !! key
        end
    | None => selected !! key
    end.
Proof.
  unfold sync_selected_commands. revert key.
  apply (map_fold_weak_ind
           (fun r (m : gmap BindingKey string) => forall key,
              r !! key = match m !! key with
                         | Some command =>
                             match std_find commands command with
                             | Some i => Some (Z.of_nat i)
                             | None => selected !! key
                             end
                         | None => selected !! key
                         end)).
  - intros key. rewrite lookup_empty. reflexivity.
  - intros k x m r Hk IH key.
    destruct (decide (k = key)) as [->|Hne].
    + rewrite lookup_insert_eq.
      destruct (std_find commands x) as [i|].
      * apply lookup_insert_eq.
      * rewrite IH, Hk. reflexivity.
    + rewrite lookup_insert_ne by assumption.
      destruct (std_find commands x) as [i|].
      * rewrite lookup_insert_ne by assumption. apply IH.
      * apply IH.
Qed.

(** X5.  [sync_selected_commands] against the table.  A key bound to a
    command of the catalog gets the first position of that command, so the
    catalog entry at the recorded index is the bound command; a key that is
    not bound, or bound to a command the catalog lacks, keeps the index it
    had. *)
Theorem sync_selected_commands_round_trip
    (commands : list string) (bindings : gmap BindingKey string)
    (selected : gmap BindingKey Z) (key : BindingKey) :
  (forall command,
     lookupBinding key bindings = Some command -> command ∈ commands ->
     exists i,
       sync_selected_commands commands bindings selected !! key
         = Some (Z.of_nat i) /\
       commands !! i = Some command /\
       forall j, (j < i)%nat -> commands !! j <> Some command) /\
  (lookupBinding key bindings = None ->
     sync_selected_commands commands bindings selected !! key
       = selected !! key) /\
  (forall command,
     lookupBinding key bindings = Some command -> command ∉ commands ->
     sync_selected_commands commands bindings selected !! key
       = selected !! key).
Proof.
  unfold lookupBinding. repeat apply conj.
  - intros command Hb Hin. rewrite sync_selected_commands_lookup, Hb.
    apply found_elem_of in Hin. unfold found in Hin.
    destruct (std_find commands command) as [i|] eqn:E; [|discriminate].
    exists i. repeat apply conj.
    + reflexivity.
    + apply std_find_Some, E.
    + apply std_find_first, E.
  - intros Hb. rewrite sync_selected_commands_lookup, Hb. reflexivity.
  - intros command Hb Hnin. rewrite sync_selected_commands_lookup, Hb.
    destruct (std_find commands command) as [i|] eqn:E; [|reflexivity].
    exfalso. apply Hnin. apply found_elem_of. unfold found. rewrite E.
    reflexivity.
Qed.

Lemma sync_selected_commands_round_trip_witness :
  exists i,
    sync_selected_commands (all_commands []) (gesture_bindings bound_state) ∅
      !! (3, "LEFT") = Some (Z.of_nat i) /\
    all_commands [] !! i = Some "gnome-terminal" /\
    forall j, (j < i)%nat -> all_commands [] !! j <> Some "gnome-terminal".
Proof.
  refine (proj1 (sync_selected_commands_round_trip (all_commands [])
                   (gesture_bindings bound_state) ∅ (3, "LEFT"))
            "gnome-terminal" _ _).
  - vm_compute. reflexivity.
  - apply found_elem_of. vm_compute. reflexivity.
Defined.


(** ** The previews of the combo boxes *)

Lemma synced_shows_bindings (commands : list string)
    (bindings : gmap BindingKey string) (st : State) :
  commands !! 0%nat = Some "None" ->
  shows_bindings commands
    (set_selected_command_indices
       (sync_selected_commands commands
          (pruneStaleBindings commands bindings) ∅)
       (set_gesture_bindings (pruneStaleBindings commands bindings) st)).
Proof.
  intros Hnone key. unfold combo_preview. simpl.
  rewrite sync_selected_commands_lookup.
  destruct (pruneStaleBindings commands bindings !! key) as [command|] eqn:E.
  - pose proof (pruneStaleBindings_consistent commands bindings key command E)
      as Hin.
    apply found_elem_of in Hin. unfold found in Hin.
    destruct (std_find commands command) as [i|] eqn:Ef; [|discriminate].
    simpl. destruct (decide (0 <= Z.of_nat i)) as [_|Hneg]; [|lia].
    rewrite Nat2Z.id. apply std_find_Some, Ef.
  - rewrite lookup_empty. simpl. exact Hnone.
Qed.

Lemma combo_shows_bindings (gui : gui_input) (commands : list string)
    (key : BindingKey) (st : State) :
  shows_bindings commands st ->
  shows_bindings commands (combo gui commands key st).1.
Proof.
  apply (combo_invariant (shows_bindings commands)).
  - intros s Hs Hnone key'. specialize (Hs key').
    unfold combo_preview in *. simpl.
    destruct (decide (key = key')) as [<-|Hne].
    + rewrite lookup_insert_eq. rewrite Hnone in Hs. exact Hs.
    + rewrite lookup_insert_ne by assumption. exact Hs.
  - intros i command s Hi _ _ Hs key'. specialize (Hs key').
    unfold combo_preview in *. simpl.
    rewrite setBinding_lookup.
    destruct (decide (key = key')) as [<-|Hne].
    + rewrite lookup_insert_eq. simpl.
      destruct (decide (0 <= Z.of_nat i)) as [_|Hneg]; [|lia].
      rewrite Nat2Z.id, Hi.
      destruct (String.eqb_spec command "None") as [->|_]; reflexivity.
    + rewrite lookup_insert_ne by assumption. exact Hs.
Qed.

Lemma combo_user_commands (gui : gui_input) (commands : list string)
    (key : BindingKey) (st : State) :
  user_commands (combo gui commands key st).1 = user_commands st.
Proof.
  apply (combo_invariant (fun s => user_commands s = user_commands st));
    auto.
Qed.

Lemma display_loop_user_commands (gui : gui_input) (commands : list string)
    (keys : list BindingKey) (st : State) :
  user_commands (for_each (combo gui commands) keys st).1 = user_commands st.
Proof.
  apply (for_each_invariant (fun s => user_commands s = user_commands st));
    [|reflexivity].
  intros key s _ <-. apply combo_user_commands.
Qed.

Lemma display_loop_shows_bindings (gui : gui_input) (commands : list string)
    (keys : list BindingKey) (st : State) :
  shows_bindings commands st ->
  shows_bindings commands (for_each (combo gui commands) keys st).1.
Proof.
  intros Hst. apply (for_each_invariant (shows_bindings commands));
    [|exact Hst].
  intros key s _. apply combo_shows_bindings.
Qed.

Lemma frame_prepare_shows_bindings (gui : gui_input) (st : State) :
  shows_bindings (all_commands (user_commands (frame_prepare gui st)))
    (frame_prepare gui st).
Proof.
  unfold frame_prepare. cbv zeta. apply synced_shows_bindings. reflexivity.
Qed.

Lemma frame_shows_bindings (gui : gui_input) (st : State) :
  shows_bindings (all_commands (user_commands (frame gui st).1))
    (frame gui st).1.
Proof.
  rewrite frame_unfold, display_loop_user_commands.
  apply display_loop_shows_bindings, frame_prepare_shows_bindings.
Qed.

(** X6.  The combo previews are always in range and always show the table.
    In every frame, after any number of the eight combos has been drawn,
    the index [selected_command_indices[key]] of every key lies inside
    [all_commands], and the entry there is the command the key is bound to,
    or ["None"] when it is not bound; so [all_commands[selected]] on line
    422 never reads outside the vector. *)
Theorem combo_preview_shows_binding
    (gui : gui_input) (st : State) (n : nat) (key : BindingKey) :
  let commands := all_commands (user_commands (frame_prepare gui st)) in
  let drawn :=
    (for_each (combo gui commands) (take n displayed_keys)
       (frame_prepare gui st)).1 in
  combo_preview commands key drawn
    = Some (default "None" (gesture_bindings drawn !! key)) /\
  combo_preview (all_commands (user_commands (frame gui st).1)) key
    (frame gui st).1
    = Some (default "None" (gesture_bindings (frame gui st).1 !! key)).
Proof.
  cbv zeta. split.
  - apply display_loop_shows_bindings, frame_prepare_shows_bindings.
  - apply frame_shows_bindings.
Qed.


(** ** The configuration across main-loop iterations *)

Lemma addCustomAction_nonempty (cmd : string) (user : list string) :
  "" ∉ user -> "" ∉ addCustomAction cmd user.
Proof.
  intros Hu. unfold addCustomAction.
  destruct (String.eqb_spec cmd "") as [->|Hne]; simpl; [exact Hu|].
  destruct (found user cmd); simpl; [exact Hu|].
  intros Hin. apply elem_of_app in Hin as [Hin|Hin]; [exact (Hu Hin)|].
  apply list_elem_of_singleton in Hin. congruence.
Qed.

Lemma frame_prepare_user_commands (gui : gui_input) (st : State) :
  user_commands (frame_prepare gui st) =
    if add_clicked gui
    then addCustomAction (input_text gui (custom_cmd st)) (user_commands st)
    else user_commands st.
Proof. unfold frame_prepare. destruct (add_clicked gui); reflexivity. Qed.

Lemma frame_user_commands (gui : gui_input) (st : State) :
  user_commands (frame gui st).1 =
    if add_clicked gui
    then addCustomAction (input_text gui (custom_cmd st)) (user_commands st)
    else user_commands st.
Proof.
  rewrite frame_unfold, display_loop_user_commands.
  apply frame_prepare_user_commands.
Qed.

(** Device events leave the configuration alone. *)
Lemma handle_events_configuration exit_status evs st :
  gesture_bindings (handle_events exit_status evs st).1 = gesture_bindings st
  /\
  selected_command_indices (handle_events exit_status evs st).1
    = selected_command_indices st /\
  user_commands (handle_events exit_status evs st).1 = user_commands st /\
  custom_cmd (handle_events exit_status evs st).1 = custom_cmd st.
Proof.
  unfold handle_events.
  apply (for_each_invariant
           (fun s => gesture_bindings s = gesture_bindings st /\
                     selected_command_indices s = selected_command_indices st
                     /\ user_commands s = user_commands st /\
                     custom_cmd s = custom_cmd st));
    [|repeat split].
  intros ev s _ (<- & <- & <- & <-).
  rewrite (handle_event_sessions_only exit_status ev s).
  repeat split.
Qed.

Lemma no_sentinel_pruneStaleBindings (commands : list string)
    (b : gmap BindingKey string) :
  (forall key : BindingKey, b !! key <> Some "None") ->
  forall key : BindingKey,
    pruneStaleBindings commands b !! key <> Some "None".
Proof.
  intros Hb key. rewrite pruneStaleBindings_lookup.
  specialize (Hb key). destruct (b !! key) as [c|]; [|discriminate].
  destruct (found commands c); [exact Hb|discriminate].
Qed.

Lemma no_sentinel_setBinding (key : BindingKey) (command : string)
    (b : gmap BindingKey string) :
  (forall key : BindingKey, b !! key <> Some "None") ->
  forall key' : BindingKey,
    setBinding key command b !! key' <> Some "None".
Proof.
  intros Hb key'. rewrite setBinding_lookup.
  destruct (decide (key = key')); [|apply Hb].
  destruct (String.eqb_spec command "None"); [discriminate|congruence].
Qed.

Lemma frame_coherent (gui : gui_input) (st : State) :
  NoDup (user_commands st) -> "" ∉ user_commands st ->
  (forall key : BindingKey, gesture_bindings st !! key <> Some "None") ->
  coherent (frame gui st).1.
Proof.
  intros Hnd Hne Hsent. unfold coherent. repeat apply conj.
  - rewrite frame_user_commands. destruct (add_clicked gui); [|exact Hnd].
    apply addCustomAction_NoDup, Hnd.
  - rewrite frame_user_commands. destruct (add_clicked gui); [|exact Hne].
    apply addCustomAction_nonempty, Hne.
  - apply frame_consistent.
  - apply (frame_preserves
             (fun b : gmap BindingKey string =>
                forall key : BindingKey, b !! key <> Some "None")).
    + intros commands b. apply no_sentinel_pruneStaleBindings.
    + intros key command b _. apply no_sentinel_setBinding.
    + exact Hsent.
  - apply frame_shows_bindings.
Qed.

Lemma reachable_coherent (st : State) : reachable st -> coherent st.
Proof.
  induction 1 as [|exit_status evs gui st Hst IH].
  - unfold coherent. simpl. repeat apply conj.
    + apply NoDup_nil_2.
    + apply not_elem_of_nil.
    + intros key command. unfold lookupBinding. rewrite lookup_empty.
      discriminate.
    + intros key. rewrite lookup_empty. discriminate.
    + intros key. unfold combo_preview. simpl. rewrite !lookup_empty.
      reflexivity.
  - unfold main_loop_iteration.
    destruct (handle_events exit_status evs st) as [st1 out1] eqn:E1.
    destruct (frame gui st1) as [st2 out2] eqn:E2. simpl.
    change st2 with (st2, out2).1. rewrite <- E2.
    destruct (handle_events_configuration exit_status evs st)
      as (Hb & _ & Hu & _).
    rewrite E1 in Hb, Hu. simpl in Hb, Hu.
    destruct IH as (Hnd & Hne & _ & Hsent & _).
    apply frame_coherent; rewrite ?Hu, ?Hb; assumption.
Qed.

(** X7.  The configuration of every reachable state is coherent: the custom
    commands are non-empty and pairwise distinct, every bound command is an
    entry of the catalog, no key is bound to the sentinel ["None"], and for
    every key the recorded selection index lies inside the catalog and its
    entry is the bound command (["None"] for a key that is not bound). *)
Theorem reachable_configuration_is_coherent (st : State) :
  reachable st ->
  NoDup (user_commands st) /\
  ("" ∉ user_commands st) /\
  (forall key command,
     lookupBinding key (gesture_bindings st) = Some command ->
     command ∈ all_commands (user_commands st) /\ command <> "None") /\
  (forall key,
     combo_preview (all_commands (user_commands st)) key st
       = Some (default "None" (lookupBinding key (gesture_bindings st)))).
Proof.
  intros Hst.
  destruct (reachable_coherent st Hst) as (Hnd & Hne & Hcons & Hsent & Hshow).
  repeat apply conj; try assumption.
  intros key command Hb. split.
  - exact (Hcons key command Hb).
  - intros ->. exact (Hsent key Hb).
Qed.

Lemma reachable_configuration_is_coherent_witness :
  reachable bound_state /\
  combo_preview (all_commands (user_commands bound_state)) (3, "LEFT")
    bound_state
    = Some (default "None"
              (lookupBinding (3, "LEFT") (gesture_bindings bound_state))).
Proof.
  assert (H : reachable bound_state).
  { unfold bound_state. apply reachable_iteration, reachable_initial. }
  split; [exact H|].
  exact (proj2 (proj2 (proj2
           (reachable_configuration_is_coherent bound_state H)))
           (3, "LEFT")).
Defined.

Lemma handle_event_executed_bound exit_status ev st command :
  command ∈ executed (handle_event exit_status ev st).2 ->
  exists fingers direction,
    gesture_bindings st !! (fingers, direction) = Some command.
Proof.
  destruct ev; simpl; try (intros H; apply elem_of_nil in H; destruct H).
  unfold swipe_end.
  destruct (String.eqb _ ""); simpl;
    [intros H; apply elem_of_nil in H; destruct H|].
  unfold dispatch. simpl.
  destruct (gesture_bindings st !! _) as [c|] eqn:E; simpl.
  - intros H. apply list_elem_of_singleton in H. subst c. eauto.
  - intros H. apply elem_of_nil in H. destruct H.
Qed.

Lemma handle_events_executed_bound exit_status evs st command :
  command ∈ executed (handle_events exit_status evs st).2 ->
  exists fingers direction,
    gesture_bindings st !! (fingers, direction) = Some command.
Proof.
  revert st. induction evs as [|ev evs IH]; intros st.
  - simpl. intros H. apply elem_of_nil in H. destruct H.
  - rewrite handle_events_cons. simpl. rewrite executed_app.
    intros H. apply elem_of_app in H as [H|H].
    + eapply handle_event_executed_bound, H.
    + apply IH in H as (f & d & H).
      rewrite handle_event_bindings in H. eauto.
Qed.

(** X8.  What reaches [std::system].  In a reachable state, every command
    that any sequence of device events runs is the command bound to a
    three- or four-finger direction key, is an entry of the catalog, and is
    neither ["None"] nor the empty string. *)
Theorem executed_commands_are_bound_catalog_entries
    (exit_status : string -> Z) (evs : list libinput_event) (st : State)
    (command : string) :
  reachable st ->
  command ∈ executed (handle_events exit_status evs st).2 ->
  (exists key,
     bindable key /\
     lookupBinding key (gesture_bindings st) = Some command) /\
  command ∈ all_commands (user_commands st) /\
  command <> "None" /\ command <> "".
Proof.
  intros Hst Hin.
  apply handle_events_executed_bound in Hin as (f & d & Hb).
  destruct (reachable_coherent st Hst) as (_ & Hne & Hcons & Hsent & _).
  pose proof (Hcons _ _ Hb) as Hcat.
  repeat apply conj.
  - exists (f, d). split; [|exact Hb].
    exact (reachable_within_surface st Hst _ _ Hb).
  - exact Hcat.
  - intros ->. exact (Hsent _ Hb).
  - intros ->. unfold all_commands in Hcat.
    apply elem_of_app in Hcat as [Hpre|Hu]; [|exact (Hne Hu)].
    unfold predefined_commands in Hpre.
    repeat (apply elem_of_cons in Hpre as [Hpre|Hpre]; [discriminate|]).
    apply elem_of_nil in Hpre. exact Hpre.
Qed.

Lemma executed_commands_are_bound_catalog_entries_witness :
  "gnome-terminal" ∈ all_commands (user_commands bound_state) /\
  "gnome-terminal" <> "None" /\ "gnome-terminal" <> "".
Proof.
  assert (H : reachable bound_state).
  { unfold bound_state. apply reachable_iteration, reachable_initial. }
  refine (proj2 (executed_commands_are_bound_catalog_entries (fun _ => 0)
                   (swipe_session 3 [(-80, 0)%float]) bound_state
                   "gnome-terminal" H _)).
  assert (E : executed
                (handle_events (fun _ => 0)
                   (swipe_session 3 [(-80, 0)%float]) bound_state).2
              = ["gnome-terminal"]) by (vm_compute; reflexivity).
  rewrite E. apply list_elem_of_singleton. reflexivity.
Defined.

(** X9.  Only three- and four-finger swipes can run a command: in a
    reachable state, a whole swipe occurrence with any other finger count
    hands nothing to [std::system], whatever its motion. *)
Theorem other_finger_counts_run_nothing
    (exit_status : string -> Z) (fingers : Z)
    (samples : list (float * float)) (st : State) :
  reachable st -> fingers <> 3 -> fingers <> 4 ->
  executed (handle_events exit_status (swipe_session fingers samples) st).2
    = [].
Proof.
  intros Hst H3 H4. rewrite swipe_session_run. unfold swipe_end. simpl.
  destruct (String.eqb _ ""); [reflexivity|].
  unfold dispatch. simpl.
  destruct (gesture_bindings st !! _) as [c|] eqn:E; [|reflexivity].
  exfalso. destruct (reachable_within_surface st Hst _ _ E) as [[Hf|Hf] _];
    simpl in Hf; contradiction.
Qed.

Lemma other_finger_counts_run_nothing_witness :
  executed
    (handle_events (fun _ => 0) (swipe_session 5 [(-80, 0)%float])
       bound_state).2 = [].
Proof.
  refine (other_finger_counts_run_nothing (fun _ => 0) 5 [(-80, 0)%float]
            bound_state _ _ _).
  - unfold bound_state. apply reachable_iteration, reachable_initial.
  - discriminate.
  - discriminate.
Defined.


(** ** What a frame can and cannot do *)

Lemma for_each_executed_nil {A : Type}
    (body : A -> State -> State * list effect) (l : list A) (st : State) :
  (forall x s, executed (body x s).2 = []) ->
  executed (for_each body l st).2 = [].
Proof.
  intros Hbody. revert st. induction l as [|x l IH]; intros st; simpl.
  - reflexivity.
  - pose proof (Hbody x st) as Hx. destruct (body x st) as [st1 out1].
    pose proof (IH st1) as Hl. destruct (for_each body l st1) as [st2 out2].
    simpl in *. rewrite executed_app, Hx, Hl. reflexivity.
Qed.

Lemma combo_executed_nil (gui : gui_input) (commands : list string)
    (key : BindingKey) (st : State) :
  executed (combo gui commands key st).2 = [].
Proof.
  unfold combo. destruct (combo_open gui key); [|reflexivity].
  apply for_each_executed_nil. intros [i command] s.
  destruct (selectable_clicked gui key i); reflexivity.
Qed.

(** X10.  The configuration window never runs a command and never touches
    a gesture in progress: a frame hands nothing to [std::system] and
    leaves [swipe] and [pinch] as they were, whatever the user does. *)
Theorem frame_runs_nothing (gui : gui_input) (st : State) :
  executed (frame gui st).2 = [] /\
  swipe (frame gui st).1 = swipe st /\
  pinch (frame gui st).1 = pinch st.
Proof.
  rewrite frame_unfold. split.
  - apply for_each_executed_nil. intros key s. apply combo_executed_nil.
  - apply (for_each_invariant
             (fun s => swipe s = swipe st /\ pinch s = pinch st)).
    + intros key s _ Hs.
      apply (combo_invariant
               (fun s => swipe s = swipe st /\ pinch s = pinch st));
        auto.
    + unfold frame_prepare. destruct (add_clicked gui); split; reflexivity.
Qed.

(** X11.  The catalog only grows, by at most one entry per iteration and
    at its end: after a main-loop iteration the old [user_commands] is a
    prefix of the new one, so every catalog entry keeps its index; without
    a click on "Add" the catalog is unchanged, and a click on "Add" always
    leaves the text field empty. *)
Theorem catalog_is_append_only
    (exit_status : string -> Z) (evs : list libinput_event)
    (gui : gui_input) (st : State) :
  let st' := (main_loop_iteration exit_status evs gui st).1 in
  user_commands st `prefix_of` user_commands st' /\
  (length (user_commands st') <= S (length (user_commands st)))%nat /\
  all_commands (user_commands st) `prefix_of` all_commands (user_commands st')
  /\
  (if add_clicked gui then custom_cmd st' = ""
   else user_commands st' = user_commands st).
Proof.
  cbv zeta. unfold main_loop_iteration.
  destruct (handle_events exit_status evs st) as [st1 out1] eqn:E1.
  destruct (frame gui st1) as [st2 out2] eqn:E2. simpl.
  change st2 with (st2, out2).1. rewrite <- E2.
  destruct (handle_events_configuration exit_status evs st)
    as (_ & _ & Hu & _).
  rewrite E1 in Hu. simpl in Hu.
  rewrite frame_user_commands, Hu.
  assert (Hpre : user_commands st `prefix_of`
                 (if add_clicked gui
                  then addCustomAction (input_text gui (custom_cmd st1))
                         (user_commands st)
                  else user_commands st)).
  { destruct (add_clicked gui); [|reflexivity].
    unfold addCustomAction.
    destruct (_ && _); [apply prefix_app_r|]; reflexivity. }
  repeat apply conj.
  - exact Hpre.
  - destruct (add_clicked gui); [|lia]. unfold addCustomAction.
    destruct (_ && _); [rewrite length_app; simpl|]; lia.
  - unfold all_commands. apply prefix_app, Hpre.
  - destruct (add_clicked gui) eqn:Hadd; [|reflexivity].
    rewrite frame_unfold.
    apply (for_each_invariant (fun s => custom_cmd s = "")).
    + intros key s _ Hs.
      apply (combo_invariant (fun s => custom_cmd s = "")); auto.
    + unfold frame_prepare. rewrite Hadd. reflexivity.
Qed.

Lemma consistent_pruneStaleBindings_id (commands : list string)
    (bindings : gmap BindingKey string) :
  consistent commands bindings ->
  pruneStaleBindings commands bindings = bindings.
Proof.
  intros Hc. apply map_eq. intros key.
  rewrite pruneStaleBindings_lookup.
  destruct (bindings !! key) as [c|] eqn:E; [|reflexivity].
  pose proof (Hc key c E) as Hin. apply found_elem_of in Hin.
  rewrite Hin. reflexivity.
Qed.

(** A combo box leaves the entries of every other key alone. *)
Lemma combo_other_key (gui : gui_input) (commands : list string)
    (key key' : BindingKey) (st : State) :
  key' <> key ->
  gesture_bindings (combo gui commands key' st).1 !! key
    = gesture_bindings st !! key /\
  selected_command_indices (combo gui commands key' st).1 !! key
    = selected_command_indices st !! key.
Proof.
  intros Hne.
  apply (combo_invariant
           (fun s => gesture_bindings s !! key = gesture_bindings st !! key /\
                     selected_command_indices s !! key
                       = selected_command_indices st !! key)).
  - intros s [Hb Hs] _. simpl. rewrite lookup_insert_ne by assumption.
    split; assumption.
  - intros i command s _ _ _ [Hb Hs]. simpl.
    rewrite setBinding_lookup, lookup_insert_ne by assumption.
    destruct (decide (key' = key)); [contradiction|]. split; assumption.
  - split; reflexivity.
Qed.

(** A combo box that is closed, or in which nothing is clicked, leaves the
    table alone. *)
Lemma combo_without_click (gui : gui_input) (commands : list string)
    (key : BindingKey) (st : State) :
  combo_open gui key = false \/
  (forall i, selectable_clicked gui key i = false) ->
  gesture_bindings (combo gui commands key st).1 = gesture_bindings st.
Proof.
  intros Hno.
  apply (combo_invariant
           (fun s => gesture_bindings s = gesture_bindings st)).
  - intros s Hs _. exact Hs.
  - intros i command s _ Hopen Hclick _. exfalso.
    destruct Hno as [Hno|Hno]; [|specialize (Hno i)]; congruence.
  - reflexivity.
Qed.

(** X12.  Bindings persist.  In a reachable state, a main-loop iteration
    changes the binding of a key only through a click in that key's open
    combo box: device events, the "Add" button, pruning and the other
    combo boxes leave it as it was.  In particular pruning removes nothing
    in a reachable state. *)
Theorem binding_changes_only_by_click
    (exit_status : string -> Z) (evs : list libinput_event)
    (gui : gui_input) (st : State) (key : BindingKey) :
  reachable st ->
  combo_open gui key = false \/
  (forall i, selectable_clicked gui key i = false) ->
  lookupBinding key
    (gesture_bindings (main_loop_iteration exit_status evs gui st).1)
    = lookupBinding key (gesture_bindings st) /\
  gesture_bindings
    (frame_prepare gui (handle_events exit_status evs st).1)
    = gesture_bindings st.
Proof.
  intros Hst Hno. unfold lookupBinding, main_loop_iteration.
  destruct (handle_events exit_status evs st) as [st1 out1] eqn:E1.
  destruct (frame gui st1) as [st2 out2] eqn:E2. simpl.
  change st2 with (st2, out2).1. rewrite <- E2.
  destruct (handle_events_configuration exit_status evs st)
    as (Hb & _ & Hu & _).
  rewrite E1 in Hb, Hu. simpl in Hb, Hu.
  destruct (reachable_coherent st Hst) as (_ & _ & Hcons & _ & _).
  assert (Hprep : gesture_bindings (frame_prepare gui st1)
                  = gesture_bindings st).
  { unfold frame_prepare. cbv zeta. simpl.
    assert (Hb2 : gesture_bindings
                    (if add_clicked gui
                     then add_button
                            (set_custom_cmd (input_text gui (custom_cmd st1))
                               st1)
                     else set_custom_cmd (input_text gui (custom_cmd st1)) st1)
                  = gesture_bindings st).
    { destruct (add_clicked gui); exact Hb. }
    rewrite Hb2. apply consistent_pruneStaleBindings_id.
    intros k c Hk. specialize (Hcons k c Hk).
    pose proof (frame_prepare_user_commands gui st1) as Hfu.
    unfold frame_prepare in Hfu. cbv zeta in Hfu. simpl in Hfu.
    rewrite Hfu, Hu. unfold all_commands in *.
    apply elem_of_app in Hcons as [Hp|Hc]; apply elem_of_app;
      [left; exact Hp|right].
    destruct (add_clicked gui); [|exact Hc]. unfold addCustomAction.
    destruct (_ && _); [|exact Hc]. apply elem_of_app. left. exact Hc. }
  split; [|exact Hprep].
  rewrite frame_unfold, <- Hprep.
  apply (for_each_invariant
           (fun s => gesture_bindings s !! key
                     = gesture_bindings (frame_prepare gui st1) !! key));
    [|reflexivity].
  intros key' s _ Hs. rewrite <- Hs.
  destruct (decide (key' = key)) as [->|Hne].
  - rewrite combo_without_click by exact Hno. reflexivity.
  - apply combo_other_key, Hne.
Qed.

Lemma binding_changes_only_by_click_witness :
  lookupBinding (3, "LEFT")
    (gesture_bindings
       (main_loop_iteration (fun _ => 0) [GESTURE_SWIPE_END]
          add_gnome_terminal bound_state).1)
    = lookupBinding (3, "LEFT") (gesture_bindings bound_state).
Proof.
  refine (proj1 (binding_changes_only_by_click (fun _ => 0)
                   [GESTURE_SWIPE_END] add_gnome_terminal bound_state
                   (3, "LEFT") _ _)).
  - unfold bound_state. apply reachable_iteration, reachable_initial.
  - left. reflexivity.
Defined.

(** ** Clicking a combo entry *)

Lemma for_each_skip {A : Type} (body : A -> State -> State * list effect)
    (l : list A) (st : State) :
  (forall x s, x ∈ l -> body x s = (s, [])) ->
  for_each body l st = (st, []).
Proof.
  revert st. induction l as [|x l IH]; intros st Hskip; simpl.
  - reflexivity.
  - rewrite (Hskip x st) by (apply elem_of_cons; left; reflexivity).
    rewrite IH; [reflexivity|].
    intros y s Hy. apply Hskip. apply elem_of_cons. right. exact Hy.
Qed.

Lemma for_each_app_state {A : Type}
    (body : A -> State -> State * list effect) (l1 l2 : list A) (st : State) :
  (for_each body (l1 ++ l2) st).1
    = (for_each body l2 (for_each body l1 st).1).1.
Proof.
  rewrite for_each_app. destruct (for_each body l1 st) as [st1 out1]. simpl.
  destruct (for_each body l2 st1) as [st2 out2]. reflexivity.
Qed.

Lemma for_each_cons_state {A : Type}
    (body : A -> State -> State * list effect) (x : A) (l : list A)
    (st : State) :
  (for_each body (x :: l) st).1 = (for_each body l (body x st).1).1.
Proof.
  simpl. destruct (body x st) as [st1 out1]. simpl.
  destruct (for_each body l st1) as [st2 out2]. reflexivity.
Qed.

(** A combo box in which exactly entry [i] is clicked binds (or, for
    ["None"], unbinds) its key and records [i]. *)
Lemma combo_single_click (gui : gui_input) (commands : list string)
    (key : BindingKey) (i : nat) (command : string) (st : State) :
  combo_open gui key = true ->
  (forall j, selectable_clicked gui key j = bool_decide (j = i)) ->
  commands !! i = Some command ->
  gesture_bindings (combo gui commands key st).1
    = setBinding key command (gesture_bindings st) /\
  selected_command_indices (combo gui commands key st).1 !! key
    = Some (Z.of_nat i).
Proof.
  intros Hopen Hclick Hi. unfold combo. rewrite Hopen.
  set (st0 := match selected_command_indices st !! key with
              | Some _ => st
              | None => _
              end).
  assert (Hb0 : gesture_bindings st0 = gesture_bindings st).
  { unfold st0. destruct (selected_command_indices st !! key); reflexivity. }
  clearbody st0.
  set (body := fun '(i0, c) (st' : State) =>
                 if selectable_clicked gui key i0
                 then select_command key i0 c st' else (st', [])).
  pose proof (lookup_lt_Some _ _ _ Hi) as Hlt.
  rewrite <- (take_drop_middle commands i command Hi).
  rewrite imap_app, for_each_app_state, imap_cons, for_each_cons_state.
  rewrite length_take, Nat.min_l by lia.
  rewrite (for_each_skip body (imap _ (take i commands)) st0).
  2:{ intros [j c] s Hin.
      apply elem_of_lookup_imap in Hin as (n & c' & Heq & Hn).
      injection Heq as -> ->. unfold body. rewrite Hclick.
      apply lookup_lt_Some in Hn. rewrite length_take in Hn.
      rewrite bool_decide_eq_false_2 by lia. reflexivity. }
  simpl. rewrite Hclick, bool_decide_eq_true_2 by lia. simpl.
  rewrite (for_each_skip body).
  2:{ intros [j c] s Hin.
      apply elem_of_lookup_imap in Hin as (n & c' & Heq & Hn).
      injection Heq as -> ->. unfold body. rewrite Hclick.
      rewrite bool_decide_eq_false_2 by (simpl; lia). reflexivity. }
  simpl. rewrite Nat.add_0_r, Hb0. split; [reflexivity|].
  apply lookup_insert_eq.
Qed.

Lemma displayed_keys_NoDup : NoDup displayed_keys.
Proof.
  unfold displayed_keys, directions. simpl.
  repeat (apply NoDup_cons; split;
          [intros H;
           repeat (apply elem_of_cons in H as [H|H]; [discriminate|]);
           apply elem_of_nil in H; exact H|]).
  apply NoDup_nil_2.
Qed.

Lemma click_entry_clicks (key : BindingKey) (i j : nat) :
  selectable_clicked (click_entry key i) key j = bool_decide (j = i).
Proof.
  simpl. rewrite bool_decide_eq_true_2 by reflexivity. simpl.
  destruct (Nat.eqb_spec j i) as [->|Hne].
  - rewrite bool_decide_eq_true_2; reflexivity.
  - rewrite bool_decide_eq_false_2; [reflexivity|exact Hne].
Qed.

Lemma frame_single_click
    (gui : gui_input) (st : State) (key : BindingKey) (i : nat)
    (command : string) :
  key ∈ displayed_keys ->
  combo_open gui key = true ->
  (forall j, selectable_clicked gui key j = bool_decide (j = i)) ->
  all_commands (user_commands (frame gui st).1) !! i = Some command ->
  lookupBinding key (gesture_bindings (frame gui st).1)
    = (if String.eqb command "None" then None else Some command) /\
  selected_command_indices (frame gui st).1 !! key = Some (Z.of_nat i).
Proof.
  intros Hkey Hopen Hclick Hi. unfold lookupBinding.
  rewrite frame_unfold, display_loop_user_commands in Hi.
  rewrite frame_unfold.
  set (commands := all_commands (user_commands (frame_prepare gui st))) in *.
  pose proof displayed_keys_NoDup as Hnd.
  apply list_elem_of_split in Hkey as (before & after & Hsplit).
  rewrite Hsplit in Hnd |- *.
  apply NoDup_app in Hnd as (_ & _ & Hnd).
  apply NoDup_cons in Hnd as [Hafter _].
  rewrite for_each_app_state, for_each_cons_state.
  set (s1 := (for_each (combo gui commands) before (frame_prepare gui st)).1).
  destruct (combo_single_click gui commands key i command s1 Hopen Hclick Hi)
    as [Hb Hs].
  assert (Hkeep :
            gesture_bindings
              (for_each (combo gui commands) after
                 (combo gui commands key s1).1).1 !! key
              = gesture_bindings (combo gui commands key s1).1 !! key /\
            selected_command_indices
              (for_each (combo gui commands) after
                 (combo gui commands key s1).1).1 !! key
              = selected_command_indices (combo gui commands key s1).1
                  !! key).
  { apply (for_each_invariant
             (fun s =>
                gesture_bindings s !! key
                  = gesture_bindings (combo gui commands key s1).1 !! key /\
                selected_command_indices s !! key
                  = selected_command_indices (combo gui commands key s1).1
                      !! key));
      [|split; reflexivity].
    intros key' s Hin [H1 H2]. rewrite <- H1, <- H2.
    apply combo_other_key. intros ->. exact (Hafter Hin). }
  destruct Hkeep as [-> ->]. rewrite Hb, Hs. split; [|reflexivity].
  rewrite setBinding_lookup.
  destruct (decide (key = key)); [reflexivity|contradiction].
Qed.

(** X13.  Selecting an entry binds it.  When, during a frame, the user
    opens the combo box of a displayed key and clicks exactly its entry
    [i], then after the frame the key is bound to the catalog entry at [i]
    (and unbound when that entry is ["None"]), and the key's selection
    index is [i]. *)
Theorem clicked_entry_is_bound
    (gui : gui_input) (st : State) (key : BindingKey) (i : nat)
    (command : string) :
  key ∈ displayed_keys ->
  combo_open gui key = true ->
  (forall j, selectable_clicked gui key j = bool_decide (j = i)) ->
  all_commands (user_commands (frame gui st).1) !! i = Some command ->
  lookupBinding key (gesture_bindings (frame gui st).1)
    = (if String.eqb command "None" then None else Some command) /\
  selected_command_indices (frame gui st).1 !! key = Some (Z.of_nat i).
Proof. apply frame_single_click. Qed.

Lemma clicked_entry_is_bound_witness :
  lookupBinding (4, "DOWN")
    (gesture_bindings (frame (click_entry (4, "DOWN") 3) initial_state).1)
    = Some "google-chrome" /\
  selected_command_indices
    (frame (click_entry (4, "DOWN") 3) initial_state).1 !! (4, "DOWN")
    = Some 3.
Proof.
  refine (clicked_entry_is_bound (click_entry (4, "DOWN") 3) initial_state
            (4, "DOWN") 3 "google-chrome" _ _ _ _).
  - unfold displayed_keys, directions. simpl. set_solver.
  - vm_compute. reflexivity.
  - intros j. apply click_entry_clicks.
  - vm_compute. reflexivity.
Defined.


(** X14.  From the window to [std::system].  After a frame in which the
    user clicked exactly entry [i] of the open combo box of a displayed
    key, a whole swipe occurrence with that key's finger count whose
    rounded accumulated motion is classified as that key's direction runs
    exactly the catalog entry at [i], and runs nothing when that entry is
    ["None"]. *)
Theorem clicked_entry_runs_on_swipe
    (exit_status : string -> Z) (gui : gui_input) (st : State)
    (key : BindingKey) (i : nat) (command : string)
    (samples : list (float * float)) :
  key ∈ displayed_keys ->
  combo_open gui key = true ->
  (forall j, selectable_clicked gui key j = bool_decide (j = i)) ->
  all_commands (user_commands (frame gui st).1) !! i = Some command ->
  swipe_direction (double_sum (map fst samples)) (double_sum (map snd samples))
    = key.2 ->
  executed
    (handle_events exit_status (swipe_session key.1 samples)
       (frame gui st).1).2
    = (if String.eqb command "None" then [] else [command]).
Proof.
  intros Hkey Hopen Hclick Hi Hdir.
  destruct (frame_single_click gui st key i command Hkey Hopen Hclick Hi)
    as [Hb _].
  unfold lookupBinding in Hb.
  rewrite swipe_session_run. unfold swipe_end. simpl. rewrite Hdir.
  assert (Hne : String.eqb key.2 "" = false).
  { apply displayed_keys_bindable in Hkey as [_ Hd].
    unfold directions in Hd.
    repeat (apply elem_of_cons in Hd as [->|Hd]; [reflexivity|]).
    apply elem_of_nil in Hd. destruct Hd. }
  rewrite Hne. unfold dispatch. simpl.
  destruct key as [f d]. simpl in *. rewrite Hb.
  destruct (String.eqb command "None"); reflexivity.
Qed.

Lemma clicked_entry_runs_on_swipe_witness :
  executed
    (handle_events (fun _ => 0) (swipe_session 4 [(3, 30); (4, 50)]%float)
       (frame (click_entry (4, "DOWN") 3) initial_state).1).2
    = ["google-chrome"].
Proof.
  refine (clicked_entry_runs_on_swipe (fun _ => 0)
            (click_entry (4, "DOWN") 3) initial_state (4, "DOWN") 3
            "google-chrome" [(3, 30); (4, 50)]%float _ _ _ _ _).
  - unfold displayed_keys, directions. simpl. set_solver.
  - vm_compute. reflexivity.
  - intros j. apply click_entry_clicks.
  - vm_compute. reflexivity.
  - vm_compute. reflexivity.
Defined.

(** X15.  The "Add" button at the level of the frame.  A frame in which
    "Add" is pressed on a text that is non-empty and not yet a custom
    command appends it: the text becomes the last catalog entry, at index
    [7 + length user_commands], every older entry keeps its index, and the
    text field is cleared.  Pressed on the empty text or on an existing
    custom command, "Add" leaves the catalog as it was. *)
Theorem add_button_appends_last
    (gui : gui_input) (st : State) (cmd : string) :
  add_clicked gui = true ->
  input_text gui (custom_cmd st) = cmd ->
  (cmd <> "" /\ cmd ∉ user_commands st ->
   user_commands (frame gui st).1 = user_commands st ++ [cmd] /\
   all_commands (user_commands (frame gui st).1)
     !! (7 + length (user_commands st))%nat = Some cmd /\
   (forall i c,
      all_commands (user_commands st) !! i = Some c ->
      all_commands (user_commands (frame gui st).1) !! i = Some c)) /\
  (cmd = "" \/ cmd ∈ user_commands st ->
   user_commands (frame gui st).1 = user_commands st).
Proof.
  intros Hadd Htext. rewrite frame_user_commands, Hadd, Htext.
  destruct (addCustomAction_appends cmd (user_commands st)) as [Happ Hid].
  split.
  - intros Hnew. rewrite (Happ Hnew). repeat apply conj.
    + reflexivity.
    + unfold all_commands.
      rewrite lookup_app_r by (simpl; lia).
      replace (7 + length (user_commands st) - length predefined_commands)%nat
        with (length (user_commands st) + 0)%nat by (simpl; lia).
      rewrite lookup_app_r by lia.
      replace (length (user_commands st) + 0 - length (user_commands st))%nat
        with 0%nat by lia.
      reflexivity.
    + intros i c Hi. unfold all_commands in *. rewrite app_assoc.
      apply lookup_app_l_Some, Hi.
  - intros Hold. apply Hid, Hold.
Qed.

(** A frame in which the user has typed ["lock-screen"] and presses
    "Add". *)
Lemma add_button_appends_last_witness :
  user_commands (frame (mkGui (fun _ => "lock-screen") true (fun _ => false)
                          (fun _ _ => false)) initial_state).1
    = [] ++ ["lock-screen"] /\
  all_commands
    (user_commands (frame (mkGui (fun _ => "lock-screen") true
                             (fun _ => false) (fun _ _ => false))
                      initial_state).1) !! (7 + 0)%nat
    = Some "lock-screen".
Proof.
  destruct (proj1 (add_button_appends_last
                     (mkGui (fun _ => "lock-screen") true (fun _ => false)
                        (fun _ _ => false))
                     initial_state "lock-screen" eq_refl eq_refl))
    as (H1 & H2 & _).
  - split; [discriminate|]. simpl. apply not_elem_of_nil.
  - split; [exact H1|exact H2].
Defined.

(** * Further properties of the swipe classifier *)

Module DoubleSign.

Lemma SFcompare_opp (x y : spec_float) :
  SFcompare (SFopp x) (SFopp y) = SFcompare y x.
Proof.
  destruct x as [sx|sx| |sx mx ex], y as [sy|sy| |sy my ey];
    try reflexivity;
    try (destruct sx; reflexivity);
    try (destruct sy; reflexivity);
    try (destruct sx, sy; reflexivity).
  simpl. destruct sx, sy; try reflexivity; simpl.
  - rewrite (Z.compare_antisym ex ey).
    destruct (ex ?= ey); simpl; try reflexivity.
    rewrite Pos.compare_cont_antisym. reflexivity.
  - rewrite (Z.compare_antisym ex ey).
    destruct (ex ?= ey); simpl; try reflexivity.
    rewrite Pos.compare_cont_antisym. reflexivity.
Qed.

Lemma ltb_opp (x y : float) : (- x <? - y)%float = (y <? x)%float.
Proof.
  rewrite !ltb_spec, !opp_spec. unfold SFltb.
  rewrite SFcompare_opp. reflexivity.
Qed.

Lemma abs_opp (x : float) : abs (- x) = abs x.
Proof.
  apply Prim2SF_inj. rewrite !abs_spec, opp_spec.
  destruct (Prim2SF x); reflexivity.
Qed.

Lemma ltb_nan_r (x : float) : (x <? nan)%float = false.
Proof.
  rewrite ltb_spec. change (Prim2SF nan) with S754_nan.
  unfold SFltb. destruct (Prim2SF x); reflexivity.
Qed.

Lemma ltb_nan_l (x : float) : (nan <? x)%float = false.
Proof.
  rewrite ltb_spec. change (Prim2SF nan) with S754_nan. reflexivity.
Qed.

Lemma add_nan_r (x : float) : (x + nan)%float = nan.
Proof.
  apply Prim2SF_inj. rewrite add_spec. change (Prim2SF nan) with S754_nan.
  destruct (Prim2SF x); reflexivity.
Qed.

Lemma add_nan_l (x : float) : (nan + x)%float = nan.
Proof.
  apply Prim2SF_inj. rewrite add_spec. change (Prim2SF nan) with S754_nan.
  reflexivity.
Qed.

End DoubleSign.

(** X16.  The classifier is symmetric: negating [dx] exchanges the
    verdicts LEFT and RIGHT and keeps every other verdict, and negating
    [dy] exchanges UP and DOWN and keeps every other verdict. *)
Theorem swipe_direction_mirror (dx dy : float) :
  swipe_direction (- dx) dy = mirror_horizontal (swipe_direction dx dy) /\
  swipe_direction dx (- dy) = mirror_vertical (swipe_direction dx dy).
Proof.
  assert (Hflip : forall x : float,
             (50 <? - x)%float = (x <? -50)%float /\
             (- x <? -50)%float = (50 <? x)%float).
  { intros x. split.
    - change 50%float with (- (-50))%float at 1. apply DoubleSign.ltb_opp.
    - change (-50)%float with (- (50))%float at 1. apply DoubleSign.ltb_opp. }
  assert (Hcase : forall x : float,
             (if (x <? -50)%float then "RIGHT"
              else if (50 <? x)%float then "LEFT" else "")
             = mirror_horizontal
                 (if (50 <? x)%float then "RIGHT"
                  else if (x <? -50)%float then "LEFT" else "") /\
             (if (x <? -50)%float then "DOWN"
              else if (50 <? x)%float then "UP" else "")
             = mirror_vertical
                 (if (50 <? x)%float then "DOWN"
                  else if (x <? -50)%float then "UP" else "")).
  { intros x. destruct (50 <? x)%float eqn:E1.
    - rewrite (above_threshold_not_below x E1). split; reflexivity.
    - destruct (x <? -50)%float; split; reflexivity. }
  unfold swipe_direction. rewrite !DoubleSign.abs_opp.
  destruct (Hflip dx) as [-> ->]. destruct (Hflip dy) as [-> ->].
  destruct (abs dy <? abs dx)%float; split;
    try apply Hcase;
    destruct (50 <? _)%float; try reflexivity;
    destruct (_ <? -50)%float; reflexivity.
Qed.

Lemma double_sum_nan (l : list float) :
  nan ∈ l -> double_sum l = nan.
Proof.
  unfold double_sum. generalize 0%float as acc.
  induction l as [|x l IH]; intros acc Hin.
  - apply elem_of_nil in Hin. destruct Hin.
  - simpl. apply elem_of_cons in Hin as [<-|Hin].
    + rewrite DoubleSign.add_nan_r. clear IH.
      induction l as [|y l IH]; simpl; [reflexivity|].
      rewrite DoubleSign.add_nan_l. exact IH.
    + apply IH, Hin.
Qed.

(** X17.  A NaN vertical sample cancels the swipe: when any [dy] sample of
    a swipe occurrence is NaN, the accumulated [dy] is NaN, every
    comparison with it fails, and End gives no verdict, prints nothing and
    runs nothing, whatever the [dx] samples are. *)
Theorem nan_sample_cancels_swipe
    (exit_status : string -> Z) (fingers : Z)
    (samples : list (float * float)) (st : State) :
  nan ∈ map snd samples ->
  (handle_events exit_status (swipe_session fingers samples) st).2 = [] /\
  swipe_dy (swipe (handle_events exit_status (swipe_session fingers samples)
                     st).1) = nan.
Proof.
  intros Hnan. rewrite swipe_session_run. unfold swipe_end. simpl.
  rewrite (double_sum_nan _ Hnan).
  assert (Hdir : forall dx, swipe_direction dx nan = "").
  { intros dx. unfold swipe_direction. change (abs nan) with nan.
    rewrite DoubleSign.ltb_nan_l, DoubleSign.ltb_nan_r, DoubleSign.ltb_nan_l.
    reflexivity. }
  rewrite Hdir. simpl. split; reflexivity.
Qed.

Lemma nan_sample_cancels_swipe_witness :
  (handle_events (fun _ => 0) (swipe_session 3 [(80, 0); (20, nan)]%float)
     bound_state).2 = [].
Proof.
  refine (proj1 (nan_sample_cancels_swipe (fun _ => 0) 3
                   [(80, 0); (20, nan)]%float bound_state _)).
  simpl. apply elem_of_cons. right. apply elem_of_cons. left. reflexivity.
Defined.

(** * Event type names *)

(** X18.  [get_event_type_name] never gives two event types the same name:
    different event types, named by the switch or not, get different
    strings, whatever values [libinput.h] gives the enumerators. *)
Theorem get_event_type_name_distinguishes
    (T : libinput_event_types) (type1 type2 : Z) :
  type1 <> type2 ->
  get_event_type_name T type1 <> get_event_type_name T type2.
Proof.
  intros Hne Heq. apply Hne. clear Hne. revert Heq.
  unfold get_event_type_name.
  repeat match goal with
         | |- context [Z.eqb type1 ?c] => destruct (Z.eqb_spec type1 c)
         end;
    repeat match goal with
           | |- context [Z.eqb type2 ?c] => destruct (Z.eqb_spec type2 c)
           end;
    intros Heq; try congruence; try discriminate Heq.
  apply (inj (String.app "UNKNOWN_EVENT_")) in Heq.
  apply (inj pretty) in Heq. exact Heq.
Qed.

Lemma get_event_type_name_distinguishes_witness :
  get_event_type_name libinput_h 405 <> get_event_type_name libinput_h 900 /\
  get_event_type_name libinput_h 405 = "POINTER_FINGER" /\
  get_event_type_name libinput_h 900 = "UNKNOWN_EVENT_900".
Proof.
  split; [|split; vm_compute; reflexivity].
  apply (get_event_type_name_distinguishes libinput_h 405 900).
  discriminate.
Defined.
